(** * Portfolio-web: the session-authenticated backend of server.js and db.js

    A shallow embedding of the six API routes of [server.js] over the two
    tables that [db.js] creates, and the properties of the specification
    proved about it.

    Conventions of the embedding.
    - A JavaScript string is the string of its UTF-8 bytes.  A value of a
      request body is a [json] as [express.json()] or
      [express.urlencoded({extended: true})] delivers it: a string, a number, a
      boolean, [null], an array or an object; a value of [req.query] is a
      string, an array or an object ([query_value]).  A property that is
      absent is [None], which is JavaScript's [undefined].
    - A JavaScript number is a double.  The integers among the doubles are
      modelled as themselves ([Z]); arithmetic rounds to the nearest double
      ([JS.to_double]), and 2^1024 stands for Infinity.  The numbers of a
      parsed body are integers: a fraction in a body is a truthy value that is
      not a string, and takes the branches that a non-zero integer takes.
    - [req.body] is [None] when neither parser of lines 15-16 read the
      request (no body, or a Content-Type that is neither JSON nor
      urlencoded), which is how Express 5 leaves it.  A body that is a JSON
      array has none of the properties the handlers read and is the object
      without fields.  A request that the parsers themselves reject never
      reaches a handler and is not modelled.
    - The database is the pair of tables with their AUTO_INCREMENT counters.
      A query may be rejected by the server for a reason the handler does not
      control (unreachable server, a column limit of the schema); the
      per-request list [env_outages] says which queries of the request are.
      What the server does with a parameter that is not a string is the
      driver's and the server's business ([foreign_text], [foreign_where]).
      The order in which [ORDER BY created_at DESC] lists rows of equal
      [created_at] is the server's choice, made anew for every query
      ([env_users_rank], [env_messages_rank]).
    - One client is followed: [sess] is the session that its cookie names.
      The expiry of the cookie after 24 hours is not modelled; to the
      handlers an expired session is a session that was never set. *)

From Stdlib Require Import String Ascii List ZArith Lia Bool.
From Stdlib Require Import Sorted Permutation.
Import ListNotations.

Set Warnings "-register-all".

Open Scope string_scope.
Open Scope Z_scope.

(** ** Values *)

(** What a request body carries and what a response sends. *)
Inductive json : Type :=
| JNull
| JBool (b : bool)
| JNum (n : Z)
| JStr (s : string)
| JDate (t : Z)   (* a Date; JSON.stringify renders it as its ISO string *)
| JArr (items : list json)
| JObj (members : list (string * json))
| JErrorPage.     (* not JSON: the HTML page of Express's default error handler *)

(** What the query string parser makes of a parameter. *)
Inductive query_value : Type :=
| QStr (s : string)
| QArr (items : list query_value)
| QObj (members : list (string * query_value)).

(** Property [k] of a parsed body or query. *)
Fixpoint field {V : Type} (k : string) (o : list (string * V)) : option V :=
  match o with
  | (k', v) :: r => if String.eqb k k' then Some v else field k r
  | [] => None
  end.

(** The properties of [req.body] and of [req.query]. *)
Definition fields : Type := list (string * json).
Definition params : Type := list (string * query_value).

(** ** JavaScript *)

Module JS.

(** [!v] negated: [undefined], [null], [false], [0] and the empty string are
    falsy, everything else is truthy, arrays and objects included. *)
Definition truthy (v : option json) : bool :=
  match v with
  | None => false
  | Some JNull => false
  | Some (JBool b) => b
  | Some (JNum n) => negb (n =? 0)
  | Some (JStr s) => match s with EmptyString => false | String _ _ => true end
  | Some _ => true
  end.

(** Truthiness of a number or [undefined]. *)
Definition truthy_num (v : option Z) : bool :=
  match v with
  | Some n => negb (n =? 0)
  | None => false
  end.

(** A value as a query parameter or a member of a response; the handlers pass
    on only values they have found truthy. *)
Definition val (v : option json) : json :=
  match v with
  | Some j => j
  | None => JNull
  end.

(** [a !== b] negated, on two properties of a parsed body: primitives are
    compared by value, and an array or an object of one property is never the
    array or object of another. *)
Definition strict_eq (a b : option json) : bool :=
  match a, b with
  | None, None => true
  | Some JNull, Some JNull => true
  | Some (JBool x), Some (JBool y) => Bool.eqb x y
  | Some (JNum x), Some (JNum y) => x =? y
  | Some (JStr x), Some (JStr y) => String.eqb x y
  | _, _ => false
  end.

(** [String(v)] of a query value: an array is its elements joined by commas. *)
Fixpoint to_string (v : query_value) : string :=
  match v with
  | QStr s => s
  | QArr l => String.concat "," (map to_string l)
  | QObj _ => "[object Object]"
  end.

Definition str (v : option query_value) : string :=
  match v with
  | Some v => to_string v
  | None => "undefined"
  end.

Definition code (c : ascii) : Z := Z.of_nat (nat_of_ascii c).

(** White space and line terminators (StrWhiteSpaceChar) in UTF-8: TAB, LF,
    VT, FF, CR and SP in one byte; U+00A0 in two; U+1680, U+2000 to U+200A,
    U+2028, U+2029, U+202F, U+205F, U+3000 and U+FEFF in three. *)
Definition white1 (a : ascii) : bool :=
  ((9 <=? code a) && (code a <=? 13)) || (code a =? 32).

Definition white2 (a b : ascii) : bool :=
  (code a =? 194) && (code b =? 160).

Definition white3 (a b c : ascii) : bool :=
  ((code a =? 225) && (code b =? 154) && (code c =? 128))
  || ((code a =? 226) && (code b =? 128)
      && (((128 <=? code c) && (code c <=? 138))
          || (code c =? 168) || (code c =? 169) || (code c =? 175)))
  || ((code a =? 226) && (code b =? 129) && (code c =? 159))
  || ((code a =? 227) && (code b =? 128) && (code c =? 128))
  || ((code a =? 239) && (code b =? 187) && (code c =? 191)).

Fixpoint trim_start (s : string) : string :=
  match s with
  | String a r =>
      if white1 a then trim_start r
      else
        match r with
        | String b r2 =>
            if white2 a b then trim_start r2
            else
              match r2 with
              | String c r3 => if white3 a b c then trim_start r3 else s
              | EmptyString => s
              end
        | EmptyString => s
        end
  | EmptyString => s
  end.

Definition digit_value (radix : Z) (c : ascii) : option Z :=
  let n := code c in
  let v :=
    if (48 <=? n) && (n <=? 57) then Some (n - 48)
    else if (97 <=? n) && (n <=? 122) then Some (n - 87)
    else if (65 <=? n) && (n <=? 90) then Some (n - 55)
    else None in
  match v with
  | Some d => if d <? radix then Some d else None
  | None => None
  end.

(** Value of the longest prefix of digits; [acc] is [None] until the first
    digit has been read. *)
Fixpoint digits (radix : Z) (s : string) (acc : option Z) : option Z :=
  match s with
  | String c r =>
      match digit_value radix c with
      | Some d =>
          digits radix r
            (Some (match acc with Some a => a * radix + d | None => d end))
      | None => acc
      end
  | EmptyString => acc
  end.

(** [Number.MAX_SAFE_INTEGER], 2^53 - 1: up to it the integers are exact. *)
Definition MAX_SAFE_INTEGER : Z := 9007199254740991.

(** The double nearest to an integer, ties to the even significand of 53
    bits; from 2^1024 on it is Infinity. *)
Definition to_double (n : Z) : Z :=
  let a := Z.abs n in
  if a <=? MAX_SAFE_INTEGER then n
  else
    let e := Z.log2 a - 52 in
    let q := a / 2 ^ e in
    let r := a mod 2 ^ e in
    let half := 2 ^ (e - 1) in
    let q' := if (half <? r) || ((half =? r) && Z.odd q) then q + 1 else q in
    Z.sgn n * Z.min (q' * 2 ^ e) (2 ^ 1024).

(** [a - b] and [a * b] on doubles that are integers. *)
Definition sub (a b : Z) : Z := to_double (a - b).
Definition mul (a b : Z) : Z := to_double (a * b).

(** [parseInt(v)] with no radix argument; [None] is [NaN].  The argument is
    first converted to a string, so [undefined] is read as "undefined". *)
Definition parseInt (v : option query_value) : option Z :=
  let s := trim_start (str v) in
  let '(sign, s) :=
    match s with
    | String "-" r => (-1, r)
    | String "+" r => (1, r)
    | _ => (1, s)
    end in
  let '(radix, s) :=
    match s with
    | String "0" (String "x" r) => (16, r)
    | String "0" (String "X" r) => (16, r)
    | _ => (10, s)
    end in
  match digits radix s None with
  | Some n => Some (to_double (sign * n))
  | None => None
  end.

(** The number of a value already known to be one. *)
Definition num (v : option Z) : Z :=
  match v with
  | Some n => n
  | None => 0
  end.

(** [v || d] on numbers: [NaN] and [0] give [d]. *)
Definition or_default (v : option Z) (d : Z) : Z :=
  match v with
  | Some n => if n =? 0 then d else n
  | None => d
  end.

(** [Math.ceil(a / b)] for a row count [a] and [b] positive. *)
Definition ceil_div (a b : Z) : Z := - ((- a) / b).

End JS.

(** ** Responses *)

(** Member [k] of an object. *)
Definition member (k : string) (l : list (string * json)) : option json :=
  field k l.

Definition get (k : string) (j : json) : option json :=
  match j with
  | JObj l => member k l
  | _ => None
  end.



(** A property that JSON.stringify drops when its value is [undefined]. *)
Definition optional (k : string) (v : option json) : list (string * json) :=
  match v with
  | Some j => [(k, j)]
  | None => []
  end.

Record response : Type := mkResponse { status : Z; body : json }.

(** [res.json(o)] and [res.status(n).json(o)]. *)
Definition json_ (o : json) : response := mkResponse 200 o.
Definition status_json (n : Z) (o : json) : response := mkResponse n o.

(** What the client gets when a handler throws outside its [try]: Express
    hands the error to its default handler, which answers 500 with a page. *)
Definition uncaught : response := mkResponse 500 JErrorPage.

(** The two-member object of every refusal. *)
Definition refusal (m : string) : json :=
  JObj [("success", JBool false); ("message", JStr m)].

Definition failing (r : response) : bool :=
  match get "success" (body r) with
  | Some (JBool false) => true
  | _ => false
  end.

(** ** The tables of db.js *)

Record user : Type := mkUser {
  u_id : Z;
  u_username : string;
  u_email : string;
  u_password : string;
  u_created_at : Z
}.

Record message : Type := mkMessage {
  m_id : Z;
  m_user_id : option Z;   (* NULL once the referenced user is deleted *)
  m_name : string;
  m_email : string;
  m_subject : string;
  m_message : string;
  m_created_at : Z
}.

Record database : Type := mkDatabase {
  users : list user;
  messages : list message;
  users_auto_increment : Z;
  messages_auto_increment : Z
}.

(** The tables right after their creation by [initDb]. *)
Definition empty_db : database := mkDatabase [] [] 1 1.

(** A stable insertion sort, greatest key first. *)
Fixpoint insert_desc {A : Type} (key : A -> Z) (x : A) (l : list A) : list A :=
  match l with
  | y :: r => if key y <=? key x then x :: l else y :: insert_desc key x r
  | [] => [x]
  end.

Fixpoint order_by_desc {A : Type} (key : A -> Z) (l : list A) : list A :=
  match l with
  | x :: r => insert_desc key x (order_by_desc key r)
  | [] => []
  end.

(** [ORDER BY key DESC] as the server answers one query: greatest [key]
    first, and the rows of equal [key] in the order of the ranks that the
    server gives, for this query, to the rows (by their [ident]). *)
Definition listing {A : Type} (rank : Z -> Z) (ident key : A -> Z) (l : list A)
  : list A :=
  order_by_desc key (order_by_desc (fun x => - rank (ident x)) l).

(** [LIMIT limit OFFSET offset] on rows already ordered. *)
Definition limit_offset {A : Type} (limit offset : Z) (l : list A) : list A :=
  firstn (Z.to_nat limit) (skipn (Z.to_nat offset) l).

(** The greatest OFFSET that the server takes: 2^64 - 1. *)
Definition MAX_OFFSET : Z := 18446744073709551615.

(** [messages m LEFT JOIN users u ON m.user_id = u.id]. *)
Definition left_join (ms : list message) (us : list user)
  : list (message * option user) :=
  flat_map
    (fun m =>
       match filter (fun u => match m_user_id m with
                              | Some i => i =? u_id u
                              | None => false
                              end) us with
       | [] => [(m, None)]
       | matched => map (fun u => (m, Some u)) matched
       end) ms.

(** The row of [SELECT id, username, email, created_at FROM users]. *)
Definition user_row (u : user) : json :=
  JObj [("id", JNum (u_id u));
        ("username", JStr (u_username u));
        ("email", JStr (u_email u));
        ("created_at", JDate (u_created_at u))].

(** The row of [SELECT m.*, u.username as user_name]. *)
Definition message_row (r : message * option user) : json :=
  let '(m, u) := r in
  JObj [("id", JNum (m_id m));
        ("user_id", match m_user_id m with Some i => JNum i | None => JNull end);
        ("name", JStr (m_name m));
        ("email", JStr (m_email m));
        ("subject", JStr (m_subject m));
        ("message", JStr (m_message m));
        ("created_at", JDate (m_created_at m));
        ("user_name", match u with Some u => JStr (u_username u) | None => JNull end)].

(** ** What the server is linked against

    [bcryptjs], the MySQL driver and the MySQL server are not part of the
    repository; the handlers are written against their interface.  [sql_eq]
    is the [=] of the collation of the text columns (db.js creates the
    database with utf8mb4_unicode_ci), [bcrypt_hash password rounds salt] is
    [bcrypt.hash(password, rounds)] for the salt that the call draws, and
    [bcrypt_compare password hash] is [bcrypt.compare], both on strings.

    A query parameter that is a string is sent as that string.  For any other
    value the driver writes what its escaping rules make of it (a number as
    its digits, an array as the list of its elements, an object as
    [key = value] pairs) and the server reads the statement that results:
    [foreign_text column earlier v] is the text that [v] then puts in a text
    column of a new row, if the statement is accepted at all, given the
    values [earlier] that come before it in the value list (an expression
    may refer to a column set earlier in the list), and
    [foreign_where username email] is the condition that
    [WHERE username = ? OR email = ?] then is. *)

Class Platform : Type := {
  sql_eq : string -> string -> bool;
  bcrypt_hash : string -> Z -> Z -> string;
  bcrypt_compare : string -> string -> bool;
  foreign_text : string -> list json -> json -> option string;
  foreign_where : json -> json -> option (user -> bool)
}.

(** What the proofs may assume of them: a string equals itself in the
    collation, and a password verifies against its own hash. *)
Class PlatformLaws (P : Platform) : Prop := {
  sql_eq_refl : forall s, sql_eq s s = true;
  bcrypt_compare_hash :
    forall password rounds salt,
      bcrypt_compare password (bcrypt_hash password rounds salt) = true
}.

(** The text of a parameter that the driver writes as one string: a string,
    or an array of one string. *)
Definition single_text (v : json) : option string :=
  match v with
  | JStr s => Some s
  | JArr [JStr s] => Some s
  | _ => None
  end.

(** A platform to run the handlers on: binary collation, a stand-in for the
    hash that keeps the two laws, a driver that writes an array of one string
    as that string, and a server that rejects the statement made of any other
    parameter that is not a string. *)
Definition plain : Platform := {|
  sql_eq := String.eqb;
  bcrypt_hash := fun password _ _ => "$2a$10$" ++ password;
  bcrypt_compare := fun password hash => String.eqb ("$2a$10$" ++ password) hash;
  foreign_text := fun _ _ v => single_text v;
  foreign_where := fun username email =>
    match single_text username, single_text email with
    | Some a, Some b =>
        Some (fun u => String.eqb (u_username u) a || String.eqb (u_email u) b)
    | _, _ => None
    end
|}.

(** ** Queries

    A query runs against the tables and either resolves to its rows or is
    rejected, which the handlers see as a thrown error.  [upcoming] is the
    part of the outage list not yet consumed: its head says whether the server
    rejects the next query. *)

Inductive outcome (A : Type) : Type :=
| Resolved (a : A)
| Rejected.
Arguments Resolved {A} a.
Arguments Rejected {A}.

Record link : Type := mkLink { tables : database; upcoming : list bool }.

Definition io (A : Type) : Type := link -> outcome A * link.

Definition ret {A : Type} (a : A) : io A := fun l => (Resolved a, l).

(** A promise that is rejected, awaited. *)
Definition throw {A : Type} : io A := fun l => (Rejected, l).

Definition bind {A B : Type} (m : io A) (k : A -> io B) : io B :=
  fun l =>
    match m l with
    | (Resolved a, l') => k a l'
    | (Rejected, l') => (Rejected, l')
    end.

Notation "x <- m ;; k" := (bind m (fun x => k))
  (at level 61, m at next level, right associativity).

(** One statement sent through the pool: rejected outright during an outage,
    otherwise evaluated on the tables by [f], which may itself reject it. *)
Definition pool_query {A : Type} (f : database -> outcome A * database) : io A :=
  fun l =>
    let rest := tl (upcoming l) in
    if hd false (upcoming l)
    then (Rejected, mkLink (tables l) rest)
    else let '(r, d) := f (tables l) in (r, mkLink d rest).

Section Statements.
Context {P : Platform}.

(** [WHERE username = ? OR email = ?] with two strings. *)
Definition matches (username email : string) (u : user) : bool :=
  sql_eq (u_username u) username || sql_eq (u_email u) email.

(** The same condition with any two parameters, when the server accepts it. *)
Definition where_ (username email : json) : option (user -> bool) :=
  match username, email with
  | JStr a, JStr b => Some (matches a b)
  | _, _ => foreign_where username email
  end.

(** The text that a parameter puts in a text column of a new row, after the
    values [earlier] of the same value list. *)
Definition sql_text (column : string) (earlier : list json) (v : json)
  : option string :=
  match v with
  | JStr s => Some s
  | _ => foreign_text column earlier v
  end.

(** The username and the email of the row that
    [INSERT INTO users (username, email, password) VALUES (?, ?, ?)] makes of
    its first two parameters. *)
Definition user_texts (username email : json) : option (string * string) :=
  match sql_text "username" [] username, sql_text "email" [username] email with
  | Some u, Some m => Some (u, m)
  | _, _ => None
  end.

(** The four texts of the row that [INSERT INTO messages (user_id, name,
    email, subject, message) VALUES (?, ?, ?, ?, ?)] makes of its
    parameters. *)
Definition message_texts (user_id : Z) (name email subject text : json)
  : option (string * string * string * string) :=
  match sql_text "name" [JNum user_id] name,
        sql_text "email" [JNum user_id; name] email,
        sql_text "subject" [JNum user_id; name; email] subject,
        sql_text "message" [JNum user_id; name; email; subject] text with
  | Some n, Some e, Some s, Some t => Some (n, e, s, t)
  | _, _, _, _ => None
  end.

(** [SELECT id FROM users WHERE username = ? OR email = ?] *)
Definition select_id (username email : json) : io (list Z) :=
  pool_query (fun d =>
    match where_ username email with
    | Some cond => (Resolved (map u_id (filter cond (users d))), d)
    | None => (Rejected, d)
    end).

(** [INSERT INTO users (username, email, password) VALUES (?, ?, ?)];
    resolves to the [insertId].  Both text columns are UNIQUE. *)
Definition insert_user (now : Z) (username email : json) (password : string)
  : io Z :=
  pool_query (fun d =>
    match user_texts username email with
    | Some (username, email) =>
        if existsb (matches username email) (users d)
        then (Rejected, d)
        else
          let id := users_auto_increment d in
          (Resolved id,
           mkDatabase (users d ++ [mkUser id username email password now])
                      (messages d) (id + 1) (messages_auto_increment d))
    | None => (Rejected, d)
    end).

(** [SELECT * FROM users WHERE username = ? OR email = ?] *)
Definition select_user (username email : json) : io (list user) :=
  pool_query (fun d =>
    match where_ username email with
    | Some cond => (Resolved (filter cond (users d)), d)
    | None => (Rejected, d)
    end).

(** [INSERT INTO messages (user_id, name, email, subject, message)];
    [user_id] is a FOREIGN KEY into [users]. *)
Definition insert_message (now : Z) (user_id : Z)
    (name email subject text : json) : io unit :=
  pool_query (fun d =>
    match message_texts user_id name email subject text with
    | Some (name, email, subject, text) =>
        if existsb (fun u => u_id u =? user_id) (users d)
        then
          let id := messages_auto_increment d in
          (Resolved tt,
           mkDatabase (users d)
                      (messages d
                       ++ [mkMessage id (Some user_id) name email subject text now])
                      (users_auto_increment d) (id + 1))
        else (Rejected, d)
    | None => (Rejected, d)
    end).

(** [SELECT username FROM users WHERE id = ?] *)
Definition select_username (id : Z) : io (list string) :=
  pool_query (fun d =>
    (Resolved (map u_username (filter (fun u => u_id u =? id) (users d))), d)).

(** [SELECT COUNT( * ) as count FROM users] *)
Definition count_users : io Z :=
  pool_query (fun d => (Resolved (Z.of_nat (length (users d))), d)).

(** [SELECT COUNT( * ) as count FROM messages] *)
Definition count_messages : io Z :=
  pool_query (fun d => (Resolved (Z.of_nat (length (messages d))), d)).

(** The server takes a LIMIT and an OFFSET from 0 to 2^64 - 1 and rejects the
    statement for any other. *)
Definition in_range (n : Z) : bool := (0 <=? n) && (n <=? MAX_OFFSET).

(** [SELECT id, username, email, created_at FROM users
     ORDER BY created_at DESC LIMIT ? OFFSET ?] *)
Definition select_users_page (rank : Z -> Z) (limit offset : Z)
  : io (list json) :=
  pool_query (fun d =>
    if in_range limit && in_range offset
    then
      (Resolved (map user_row
                   (limit_offset limit offset
                      (listing rank u_id u_created_at (users d)))), d)
    else (Rejected, d)).

(** [SELECT m.*, u.username as user_name FROM messages m
     LEFT JOIN users u ON m.user_id = u.id
     ORDER BY m.created_at DESC LIMIT ? OFFSET ?] *)
Definition select_messages_page (rank : Z -> Z) (limit offset : Z)
  : io (list json) :=
  pool_query (fun d =>
    if in_range limit && in_range offset
    then
      (Resolved (map message_row
                   (limit_offset limit offset
                      (listing rank (fun r => m_id (fst r))
                         (fun r => m_created_at (fst r))
                         (left_join (messages d) (users d))))), d)
    else (Rejected, d)).

(** [await bcrypt.hash(password, rounds)]: bcryptjs rejects an argument that
    is not a string. *)
Definition hash (password : json) (rounds salt : Z) : io string :=
  match password with
  | JStr p => ret (bcrypt_hash p rounds salt)
  | _ => throw
  end.

(** [await bcrypt.compare(password, hash)], likewise. *)
Definition compare (password : json) (hashed : string) : io bool :=
  match password with
  | JStr p => ret (bcrypt_compare p hashed)
  | _ => throw
  end.

End Statements.

(** ** Requests, sessions and the state between requests *)

(** [req.session]: both properties are [undefined] until a login or a
    registration sets them, and again after [destroy].  [username] is whatever
    value the handler stored. *)
Record session : Type := mkSession { userId : option Z; username : option json }.

Definition no_session : session := mkSession None None.

Record state : Type := mkState { db : database; sess : session }.

(** The server after [initDb] on an empty database, before any request. *)
Definition init : state := mkState empty_db no_session.

(** What the surroundings decide for one request: which of its queries the
    database rejects, the salt that bcrypt draws, the CURRENT_TIMESTAMP, and
    the order that the two listing queries give to rows of equal
    [created_at] (ranks of user ids and of message ids, least first). *)
Record env : Type := mkEnv {
  env_outages : list bool;
  env_salt : Z;
  env_now : Z;
  env_users_rank : Z -> Z;
  env_messages_rank : Z -> Z
}.

(** A request with every query served, and rows of equal [created_at] listed
    in the order of the table. *)
Definition calm (salt now : Z) : env :=
  mkEnv [] salt now (fun _ => 0) (fun _ => 0).

(** A POST carries [req.body], which is [None] when no parser read it. *)
Inductive request : Type :=
| PostRegister (body : option fields)
| PostLogin (body : option fields)
| GetCheckAuth
| GetLogout
| PostContact (body : option fields)
| GetAdminData (query : params).

(** [try { block } catch (err) { handler }]: the block ends by sending a
    response and leaving the session as given; a rejected query sends the
    handler's response and leaves the session as it was. *)
Definition try_catch (e : env) (st : state)
    (block : io (response * session)) (handler : response) : response * state :=
  match block (mkLink (db st) (env_outages e)) with
  | (Resolved (r, s), l) => (r, mkState (tables l) s)
  | (Rejected, l) => (handler, mkState (tables l) (sess st))
  end.

(** One pagination block of the admin response. *)
Definition block (data : list json) (total page limit : Z) : json :=
  JObj [("data", JArr data);
        ("total", JNum total);
        ("current_page", JNum page);
        ("per_page", JNum limit);
        ("total_pages", JNum (JS.ceil_div total limit))].

Section Routes.
Context {P : Platform}.

(** POST /api/register (server.js 30-58).  Line 31 takes the four fields out
    of [req.body] as it is: with no body the handler throws there, outside
    its [try]. *)
Definition register (e : env) (body : option fields) (st : state)
  : response * state :=
  match body with
  | None => (uncaught, st)
  | Some body =>
      let username := field "username" body in
      let email := field "email" body in
      let password := field "password" body in
      let confirmPassword := field "confirm-password" body in
      if negb (JS.truthy username) || negb (JS.truthy email)
         || negb (JS.truthy password) || negb (JS.truthy confirmPassword)
      then (json_ (refusal "請填寫所有欄位"), st)
      else if negb (JS.strict_eq password confirmPassword)
      then (json_ (refusal "兩次輸入的密碼不一致"), st)
      else
        try_catch e st
          (existing <- select_id (JS.val username) (JS.val email) ;;
           if (0 <? length existing)%nat
           then ret (json_ (refusal "使用者名稱或 Email 已被註冊"), sess st)
           else
             hashedPassword <- hash (JS.val password) 10 (env_salt e) ;;
             insertId <- insert_user (env_now e) (JS.val username)
                           (JS.val email) hashedPassword ;;
             ret (json_ (JObj ([("success", JBool true);
                                ("message", JStr "註冊成功！")]
                               ++ optional "username" username)),
                  mkSession (Some insertId) username))
          (json_ (refusal "註冊失敗，系統錯誤"))
  end.

(** POST /api/login (server.js 61-83).  Line 62 reads [req.body || {}]. *)
Definition login (e : env) (body : option fields) (st : state)
  : response * state :=
  let body := match body with Some b => b | None => [] end in
  let username := field "username" body in
  let password := field "password" body in
  if negb (JS.truthy username) || negb (JS.truthy password)
  then (json_ (refusal "請填寫所有欄位"), st)
  else
    try_catch e st
      (users <- select_user (JS.val username) (JS.val username) ;;
       let user := hd_error users in
       verified <-
         match user with
         | Some u => compare (JS.val password) (u_password u)
         | None => ret false
         end ;;
       match user, verified with
       | Some u, true =>
           ret (json_ (JObj [("success", JBool true);
                             ("message", JStr "登入成功！");
                             ("username", JStr (u_username u))]),
                mkSession (Some (u_id u)) (Some (JStr (u_username u))))
       | _, _ => ret (json_ (refusal "帳號或密碼錯誤"), sess st)
       end)
      (json_ (refusal "系統錯誤")).

(** GET /api/check_auth (server.js 86-92) *)
Definition check_auth (st : state) : response * state :=
  if JS.truthy_num (userId (sess st))
  then (json_ (JObj (("isLoggedIn", JBool true)
                     :: optional "username" (username (sess st)))), st)
  else (json_ (JObj [("isLoggedIn", JBool false)]), st).

(** GET /api/logout (server.js 95-98) *)
Definition logout (st : state) : response * state :=
  (json_ (JObj [("success", JBool true)]), mkState (db st) no_session).

(** POST /api/contact (server.js 101-122).  Line 106 takes the four fields
    out of [req.body] as it is, after the session check and outside the
    [try]. *)
Definition contact (e : env) (body : option fields) (st : state)
  : response * state :=
  if negb (JS.truthy_num (userId (sess st)))
  then (status_json 401 (refusal "請先登入會員"), st)
  else
    match body with
    | None => (uncaught, st)
    | Some body =>
        let name := field "name" body in
        let email := field "email" body in
        let subject := field "subject" body in
        let message := field "message" body in
        if negb (JS.truthy name) || negb (JS.truthy email)
           || negb (JS.truthy subject) || negb (JS.truthy message)
        then (json_ (refusal "請填寫所有欄位"), st)
        else
          try_catch e st
            (_ <- insert_message (env_now e) (JS.num (userId (sess st)))
                    (JS.val name) (JS.val email) (JS.val subject)
                    (JS.val message) ;;
             ret (json_ (JObj [("success", JBool true);
                               ("message", JStr "留言發送成功！感謝您的聯繫。")]),
                  sess st))
            (json_ (refusal "留言發送失敗，請稍後再試"))
    end.

(** [!users.length || users[0].username !== 'admin'] *)
Definition not_admin (users : list string) : bool :=
  match users with
  | [] => true
  | u :: _ => negb (String.eqb u "admin")
  end.

(** The [try] block of GET /api/admin/data (server.js 130-175). *)
Definition admin_block (e : env) (query : params) (st : state)
  : io (response * session) :=
  users <- select_username (JS.num (userId (sess st))) ;;
  if not_admin users
  then ret (status_json 403 (refusal "權限不足"), sess st)
  else
    let pageUsers := JS.or_default (JS.parseInt (field "page_users" query)) 1 in
    let pageMsgs := JS.or_default (JS.parseInt (field "page_msgs" query)) 1 in
    let limit := 10 in
    let offsetUsers := JS.mul (JS.sub pageUsers 1) limit in
    let offsetMsgs := JS.mul (JS.sub pageMsgs 1) limit in
    totalUsers <- count_users ;;
    usersData <- select_users_page (env_users_rank e) limit offsetUsers ;;
    totalMsgs <- count_messages ;;
    msgsData <- select_messages_page (env_messages_rank e) limit offsetMsgs ;;
    ret (json_ (JObj [("success", JBool true);
                      ("users", block usersData totalUsers pageUsers limit);
                      ("messages", block msgsData totalMsgs pageMsgs limit)]),
         sess st).

(** GET /api/admin/data (server.js 125-181) *)
Definition admin_data (e : env) (query : params) (st : state) : response * state :=
  if negb (JS.truthy_num (userId (sess st)))
  then (status_json 401 (refusal "請先登入"), st)
  else try_catch e st (admin_block e query st)
         (status_json 500 (refusal "系統錯誤")).

(** The router. *)
Definition handle (e : env) (r : request) (st : state) : response * state :=
  match r with
  | PostRegister body => register e body st
  | PostLogin body => login e body st
  | GetCheckAuth => check_auth st
  | GetLogout => logout st
  | PostContact body => contact e body st
  | GetAdminData query => admin_data e query st
  end.

(** The states the server passes through: any requests, in any surroundings. *)
Inductive reachable : state -> Prop :=
| reachable_init : reachable init
| reachable_step e r st : reachable st -> reachable (snd (handle e r st)).

End Routes.

(** ** Vocabulary of the properties *)

(** No query of the list is rejected by an outage. *)
Definition quiet (o : list bool) : bool := forallb negb o.

(** Every query of the request reaches a working database. *)
Definition served (e : env) : Prop := quiet (env_outages e) = true.

(** The request carries an active session: [req.session.userId] is truthy. *)
Definition logged_in (st : state) : bool := JS.truthy_num (userId (sess st)).

(** The rows of [SELECT username FROM users WHERE id = ?]. *)
Definition usernames_of (id : Z) (d : database) : list string :=
  map u_username (filter (fun u => u_id u =? id) (users d)).

(** The usernames the database holds for the user id of the session. *)
Definition stored_usernames (st : state) : list string :=
  usernames_of (JS.num (userId (sess st))) (db st).

(** The session is active and its user id belongs to the row named admin. *)
Definition admin_session (st : state) : Prop :=
  logged_in st = true /\ not_admin (stored_usernames st) = false.

(** [parseInt(req.query[k]) || 1] *)
Definition page_of (k : string) (q : params) : Z :=
  JS.or_default (JS.parseInt (field k q)) 1.

(** [(page - 1) * limit] as the handler computes it. *)
Definition offset_of (page : Z) : Z := JS.mul (JS.sub page 1) 10.

(** A page number the handler computes exactly with: positive, and with an
    offset among the safe integers. *)
Definition exact_page (page : Z) : Prop :=
  0 < page /\ (page - 1) * 10 <= JS.MAX_SAFE_INTEGER.

(** The two listings of the admin route, as the server orders them for the
    request. *)
Definition users_listing (e : env) (d : database) : list user :=
  listing (env_users_rank e) u_id u_created_at (users d).

Definition messages_listing (e : env) (d : database)
  : list (message * option user) :=
  listing (env_messages_rank e) (fun r => m_id (fst r))
    (fun r => m_created_at (fst r)) (left_join (messages d) (users d)).

(** The ten rows from an offset on. *)
Definition users_rows (e : env) (d : database) (offset : Z) : list json :=
  map user_row (limit_offset 10 offset (users_listing e d)).

Definition messages_rows (e : env) (d : database) (offset : Z) : list json :=
  map message_row (limit_offset 10 offset (messages_listing e d)).

(** The rows of one page of users, and the block around them. *)
Definition users_page (e : env) (d : database) (page : Z) : list json :=
  users_rows e d ((page - 1) * 10).

Definition users_block (e : env) (d : database) (page : Z) : json :=
  block (users_page e d page) (Z.of_nat (length (users d))) page 10.

Definition messages_page (e : env) (d : database) (page : Z) : list json :=
  messages_rows e d ((page - 1) * 10).

Definition messages_block (e : env) (d : database) (page : Z) : json :=
  block (messages_page e d page) (Z.of_nat (length (messages d))) page 10.

(** The payload of a served admin request. *)
Definition admin_payload (e : env) (q : params) (d : database) : json :=
  JObj [("success", JBool true);
        ("users",
         block (users_rows e d (offset_of (page_of "page_users" q)))
           (Z.of_nat (length (users d))) (page_of "page_users" q) 10);
        ("messages",
         block (messages_rows e d (offset_of (page_of "page_msgs" q)))
           (Z.of_nat (length (messages d))) (page_of "page_msgs" q) 10)].

(** The [data] array of block [k] of a payload, if it has one. *)
Definition block_data (k : string) (j : json) : list json :=
  match get k j with
  | Some b => match get "data" b with
              | Some (JArr rows) => rows
              | _ => []
              end
  | None => []
  end.

(** The [data] array of the [users] block. *)
Definition users_data (j : json) : list json := block_data "users" j.




(** A value that is a non-empty string, and the string of a value. *)
Definition filled (v : option json) : bool :=
  match v with
  | Some (JStr (String _ _)) => true
  | _ => false
  end.

Definition text_of (v : option json) : string :=
  match v with
  | Some (JStr s) => s
  | _ => ""
  end.

(** What line 33 and line 37 check of a registration: four truthy fields and
    two passwords that are strictly equal. *)
Definition valid_registration (b : fields) : bool :=
  JS.truthy (field "username" b) && JS.truthy (field "email" b)
  && JS.truthy (field "password" b) && JS.truthy (field "confirm-password" b)
  && JS.strict_eq (field "password" b) (field "confirm-password" b).

(** All four fields of a registration are non-empty strings and the two
    passwords are the same string. *)
Definition complete_registration (b : fields) : bool :=
  filled (field "username" b) && filled (field "email" b)
  && filled (field "password" b) && filled (field "confirm-password" b)
  && String.eqb (text_of (field "password" b))
       (text_of (field "confirm-password" b)).

(** What line 64 checks of a login, and a login of two non-empty strings. *)
Definition valid_login (b : fields) : bool :=
  JS.truthy (field "username" b) && JS.truthy (field "password" b).

Definition complete_login (b : fields) : bool :=
  filled (field "username" b) && filled (field "password" b).

(** What line 108 checks of a contact message, and a message of four
    non-empty strings. *)
Definition valid_letter (b : fields) : bool :=
  JS.truthy (field "name" b) && JS.truthy (field "email" b)
  && JS.truthy (field "subject" b) && JS.truthy (field "message" b).


(** The request has no body where the handler takes one apart unguarded: a
    registration, or a contact message of an active session. *)
Definition bodiless (r : request) (st : state) : bool :=
  match r with
  | PostRegister None => true
  | PostContact None => logged_in st
  | _ => false
  end.

Section Lookups.
Context {P : Platform}.

(** Some user has this username or this email, in the collation. *)
Definition taken (username email : string) (d : database) : bool :=
  existsb (matches username email) (users d).

(** The account that a login with this identifier is checked against:
    [users[0]] of the lookup by username or email. *)
Definition account_for (identifier : string) (d : database) : option user :=
  hd_error (filter (matches identifier identifier) (users d)).

(** The rows of the lookup by username or email for any two parameters, when
    the server accepts the statement. *)
Definition found (username email : json) (d : database) : option (list user) :=
  match where_ username email with
  | Some cond => Some (filter cond (users d))
  | None => None
  end.

(** The invariant of the reachable states: user ids are positive, distinct
    and below the AUTO_INCREMENT counter, and a session that names a user id
    names a row of the table together with a value that the database reads
    as the username of that row. *)
Record consistent (st : state) : Prop := {
  counter_positive : 0 < users_auto_increment (db st);
  ids_below :
    Forall (fun u => 0 < u_id u < users_auto_increment (db st)) (users (db st));
  ids_unique : NoDup (map u_id (users (db st)));
  session_backed :
    forall i, userId (sess st) = Some i ->
      exists u v, In u (users (db st)) /\ u_id u = i
                  /\ username (sess st) = Some v
                  /\ sql_text "username" [] v = Some (u_username u)
}.

End Lookups.

(** ** States and requests to run the handlers on *)

Definition registration (u e p : string) : fields :=
  [("username", JStr u); ("email", JStr e);
   ("password", JStr p); ("confirm-password", JStr p)].

Definition credentials (u p : string) : fields :=
  [("username", JStr u); ("password", JStr p)].

Definition letter : fields :=
  [("name", JStr "Bob"); ("email", JStr "bob@example.com");
   ("subject", JStr "Hello"); ("message", JStr "Nice portfolio")].

(** The first visitor registers as admin and stays signed in. *)
Definition admin_signed_in : state :=
  snd (handle (P := plain) (calm 1 1000)
         (PostRegister (Some (registration "admin" "admin@example.com" "secret")))
         init).

(** Then bob registers from the same browser, which signs him in. *)
Definition bob_signed_in : state :=
  snd (handle (P := plain) (calm 2 1001)
         (PostRegister (Some (registration "bob" "bob@example.com" "hunter2")))
         admin_signed_in).


(** [n] more visitors register, one per second. *)
Fixpoint crowd (n : nat) (st : state) : state :=
  match n with
  | O => st
  | S k =>
      let name := String.concat "" (repeat "x" n) in
      snd (handle (P := plain) (calm 3 (1001 + Z.of_nat n))
             (PostRegister (Some (registration name (name ++ "@example.com") "pw")))
             (crowd k st))
  end.

(** Twenty-five users, and admin signed in again. *)
Definition crowded : state :=
  snd (handle (P := plain) (calm 4 2000)
         (PostLogin (Some (credentials "admin" "secret")))
         (crowd 24 admin_signed_in)).

(** A JSON body whose username is the array of the one string admin. *)
Definition admin_in_brackets : fields :=
  [("username", JArr [JStr "admin"]); ("email", JStr "mallory@example.com");
   ("password", JStr "secret"); ("confirm-password", JStr "secret")].

(** The first visitor registers with it. *)
Definition bracketed : state :=
  snd (handle (P := plain) (calm 1 1000)
         (PostRegister (Some admin_in_brackets)) init).




(** The surroundings of a request whose first query the database rejects. *)
Definition down : env := mkEnv [true] 0 0 (fun _ => 0) (fun _ => 0).

(** The surroundings of a request for which the server lists rows of equal
    [created_at] with the greater id first. *)
Definition latest_first : env := mkEnv [] 0 0 (fun id => - id) (fun id => - id).

(** Two visitors register within the same second; the second, whose name is
    admin, stays signed in. *)
Definition same_second : state :=
  snd (handle (P := plain) (calm 2 1000)
         (PostRegister (Some (registration "admin" "admin@example.com" "secret")))
         (snd (handle (P := plain) (calm 1 1000)
                 (PostRegister (Some (registration "bob" "bob@example.com" "hunter2")))
                 init))).

(** ** Further vocabulary: runs, listings, the schema bootstrap *)

(** Rows listed with the greatest key first. *)
Definition descending {A : Type} (key : A -> Z) (l : list A) : Prop :=
  StronglySorted (fun a b => key b <= key a) l.

(** The [created_at] member of a row of a response. *)
Definition created_at (row : json) : Z :=
  match get "created_at" row with
  | Some (JDate t) => t
  | _ => 0
  end.

Section Runs.
Context {P : Platform}.

(** The requests of the client one after the other, each in its own
    surroundings. *)
Fixpoint run (t : list (env * request)) (st : state) : state :=
  match t with
  | [] => st
  | (e, r) :: t' => run t' (snd (handle e r st))
  end.

(** No row repeats, in the collation, the username or the email of a row
    inserted before it. *)
Definition distinct_names (l : list user) : Prop :=
  ForallOrdPairs
    (fun a b => sql_eq (u_username a) (u_username b) = false
                /\ sql_eq (u_email a) (u_email b) = false) l.

(** The stored password is what bcrypt made of some password at cost 10. *)
Definition hashed (u : user) : Prop :=
  exists password salt, u_password u = bcrypt_hash password 10 salt.

End Runs.

(** Every message belongs to a user of the table. *)
Definition owned (d : database) : Prop :=
  Forall (fun m => exists u, In u (users d) /\ m_user_id m = Some (u_id u))
    (messages d).

(** *** initDb (db.js 19-60)

    The MySQL server either has the database named in [dbConfig] or not; a
    database has each of the two tables or not; a table is its rows and its
    AUTO_INCREMENT counter. *)

Record catalog : Type := mkCatalog {
  users_table : option (list user * Z);
  messages_table : option (list message * Z)
}.

Definition server : Type := option catalog.

(** [CREATE DATABASE IF NOT EXISTS], sent on a connection without database. *)
Definition create_database (s : server) : option server :=
  match s with
  | Some c => Some (Some c)
  | None => Some (Some (mkCatalog None None))
  end.

(** [SELECT 1] through the pool, which is bound to the database. *)
Definition select_1 (s : server) : option server :=
  match s with
  | Some c => Some (Some c)
  | None => None
  end.

(** [CREATE TABLE IF NOT EXISTS users]. *)
Definition create_users (s : server) : option server :=
  match s with
  | Some c =>
      match users_table c with
      | Some _ => Some (Some c)
      | None => Some (Some (mkCatalog (Some ([], 1)) (messages_table c)))
      end
  | None => None
  end.

(** [CREATE TABLE IF NOT EXISTS messages]; its FOREIGN KEY needs the table
    [users]. *)
Definition create_messages (s : server) : option server :=
  match s with
  | Some c =>
      match messages_table c with
      | Some _ => Some (Some c)
      | None =>
          match users_table c with
          | Some _ => Some (Some (mkCatalog (users_table c) (Some ([], 1))))
          | None => None
          end
      end
  | None => None
  end.

(** One awaited call of [initDb]: an outage or a refusal of the statement
    throws, which ends the [try] block with the server as it is. *)
Definition awaited (f : server -> option server)
    (rest : list bool -> server -> server * bool)
    (o : list bool) (s : server) : server * bool :=
  if hd false o then (s, false)
  else match f s with
       | Some s' => rest (tl o) s'
       | None => (s, false)
       end.

(** [initDb]: the server it leaves, and whether it logged success. *)
Definition initDb (o : list bool) (s : server) : server * bool :=
  awaited Some                       (* mysql.createConnection *)
    (awaited create_database
       (awaited Some                 (* connection.end *)
          (awaited select_1
             (awaited create_users
                (awaited create_messages
                   (fun _ s' => (s', true)))))))
    o s.

(** The tables the handlers work on, once both exist. *)
Definition database_of (s : server) : option database :=
  match s with
  | Some c =>
      match users_table c, messages_table c with
      | Some (us, nu), Some (ms, nm) => Some (mkDatabase us ms nu nm)
      | _, _ => None
      end
  | None => None
  end.

(** The schema is whole: the database and its two tables exist. *)
Definition bootstrapped (s : server) : Prop :=
  exists c, s = Some c /\ users_table c <> None /\ messages_table c <> None.

(** Everything that [s] has, [s'] has too, with the same rows and counters. *)
Definition extends (s s' : server) : Prop :=
  match s with
  | None => True
  | Some c =>
      exists c',
        s' = Some c'
        /\ (forall t, users_table c = Some t -> users_table c' = Some t)
        /\ (forall t, messages_table c = Some t -> messages_table c' = Some t)
  end.

(** *** More states to run the handlers on *)

(** A visitor whose email is the bare word bob registers first; then someone
    registers the username bob. *)
Definition bob_by_email : state :=
  snd (handle (P := plain) (calm 5 3000)
         (PostRegister (Some (registration "robert" "bob" "first"))) init).

(** A server whose users table holds one row and whose messages table was
    never created. *)
Definition half_made : server :=
  Some (mkCatalog
          (Some ([mkUser 1 "admin" "admin@example.com" "$2a$10$secret" 1000], 2))
          None).

(** Admin, signed in among the twenty-five users, sends a message. *)
Definition admin_wrote : state :=
  snd (handle (P := plain) (calm 6 2001) (PostContact (Some letter)) crowded).

(** The row of the visitor whose email is bob. *)
Definition robert : user := mkUser 1 "robert" "bob" "$2a$10$first" 3000.


(** ** Properties *)

Section Properties.
Context {P : Platform}.

(** *** Outages, truthiness, lists *)

Lemma quiet_hd o : quiet o = true -> hd false o = false.
Proof. destruct o as [|[] o]; cbn; congruence. Qed.

Lemma quiet_tl o : quiet o = true -> quiet (tl o) = true.
Proof. destruct o as [|[] o]; cbn; congruence. Qed.

Lemma truthy_some v : JS.truthy v = true -> v = Some (JS.val v).
Proof. destruct v; cbn; congruence. Qed.

Lemma filled_some v : filled v = true -> v = Some (JStr (text_of v)).
Proof. destruct v as [[| | |[|c s]| | | |]|]; cbn; congruence. Qed.

Lemma filled_truthy v : filled v = true -> JS.truthy v = true.
Proof. destruct v as [[| | |[|c s]| | | |]|]; cbn; congruence. Qed.

Lemma filled_val v : filled v = true -> JS.val v = JStr (text_of v).
Proof. destruct v as [[| | |[|c s]| | | |]|]; cbn; congruence. Qed.

Lemma truthy_num_some v :
  JS.truthy_num v = true -> v = Some (JS.num v) /\ JS.num v <> 0.
Proof.
  destruct v as [n|]; cbn; [|discriminate].
  intros H. apply negb_true_iff, Z.eqb_neq in H. now split.
Qed.

Lemma NoDup_snoc (l : list Z) x : NoDup l -> ~ In x l -> NoDup (l ++ [x]).
Proof.
  intros Hl Hx. induction Hl as [|a l Ha Hl IH]; cbn.
  - constructor; [tauto|constructor].
  - constructor.
    + rewrite in_app_iff. cbn. intros [H|[H|[]]]; [tauto|].
      subst. apply Hx. now left.
    + apply IH. intros H. apply Hx. now right.
Qed.

Lemma filter_none (l : list user) i :
  ~ In i (map u_id l) -> filter (fun v => u_id v =? i) l = [].
Proof.
  induction l as [|b l IH]; cbn; [reflexivity|]. intros Hni.
  destruct (u_id b =? i) eqn:E.
  - apply Z.eqb_eq in E. tauto.
  - apply IH. tauto.
Qed.

(** With distinct ids, the lookup by id returns the one row that has it. *)
Lemma filter_unique (l : list user) u :
  NoDup (map u_id l) -> In u l -> filter (fun v => u_id v =? u_id u) l = [u].
Proof.
  induction l as [|a l IH]; cbn; [tauto|].
  intros Hnd [->|Hin]; inversion Hnd as [|? ? Hni Hnd']; subst.
  - rewrite Z.eqb_refl. f_equal. now apply filter_none.
  - destruct (u_id a =? u_id u) eqn:E.
    + apply Z.eqb_eq in E. exfalso. apply Hni. rewrite E. now apply in_map.
    + now apply IH.
Qed.


Lemma existsb_filter {A B : Type} (f : A -> bool) (g : A -> B) l :
  (0 <? length (map g (filter f l)))%nat = existsb f l.
Proof.
  induction l as [|a l IH]; cbn; [reflexivity|].
  destruct (f a); cbn; [reflexivity|exact IH].
Qed.

Lemma state_eta st : mkState (db st) (sess st) = st.
Proof. now destruct st. Qed.

Lemma fst_try_catch e st m h :
  fst (try_catch e st m h)
  = match fst (m (mkLink (db st) (env_outages e))) with
    | Resolved (r, _) => r
    | Rejected => h
    end.
Proof.
  unfold try_catch. now destruct (m _) as [[[r s]|] l].
Qed.

(** *** The handlers by cases *)

(** The [try] block of the registration: the lookup, the hash, the insert. *)
Lemma register_run e b st :
  valid_registration b = true ->
  let username := JS.val (field "username" b) in
  let email := JS.val (field "email" b) in
  let sorry := (json_ (refusal "註冊失敗，系統錯誤"), st) in
  register e (Some b) st =
  if hd false (env_outages e) then sorry
  else
    match found username email (db st) with
    | None => sorry
    | Some (_ :: _) => (json_ (refusal "使用者名稱或 Email 已被註冊"), st)
    | Some [] =>
        match field "password" b with
        | Some (JStr p) =>
            if hd false (tl (env_outages e)) then sorry
            else
              match user_texts username email with
              | Some (u, m) =>
                  if taken u m (db st) then sorry
                  else
                    (json_ (JObj [("success", JBool true);
                                  ("message", JStr "註冊成功！");
                                  ("username", username)]),
                     mkState
                       (mkDatabase
                          (users (db st)
                           ++ [mkUser (users_auto_increment (db st)) u m
                                 (bcrypt_hash p 10 (env_salt e)) (env_now e)])
                          (messages (db st)) (users_auto_increment (db st) + 1)
                          (messages_auto_increment (db st)))
                       (mkSession (Some (users_auto_increment (db st)))
                          (Some username)))
              | None => sorry
              end
        | _ => sorry
        end
    end.
Proof.
  unfold valid_registration. intros H.
  rewrite !andb_true_iff in H. destruct H as [[[[T1 T2] T3] T4] T5].
  cbv zeta. unfold register. rewrite T1, T2, T3, T4, T5. cbn [negb orb].
  unfold try_catch, bind, select_id, insert_user, pool_query, ret, found.
  cbn [tables upcoming fst snd].
  destruct (hd false (env_outages e)); cbn [tables upcoming fst snd];
    [now rewrite state_eta|].
  destruct (where_ _ _) as [cond|]; cbn [tables upcoming fst snd];
    [|now rewrite state_eta].
  rewrite existsb_filter.
  destruct (filter cond (users (db st))) as [|x l] eqn:Hf.
  - assert (Hex : existsb cond (users (db st)) = false).
    { rewrite <- (existsb_filter cond u_id), Hf. reflexivity. }
    rewrite Hex.
    rewrite (truthy_some _ T3). cbn [JS.val].
    destruct (JS.val (field "password" b)); unfold hash, throw, ret;
      cbn [tables upcoming fst snd]; try now rewrite state_eta.
    destruct (hd false (tl (env_outages e))); cbn [tables upcoming fst snd];
      [now rewrite state_eta|].
    destruct (user_texts _ _) as [[u m]|]; cbn [tables upcoming fst snd];
      [|now rewrite state_eta].
    unfold taken.
    destruct (existsb (matches u m) _); cbn [tables upcoming fst snd];
      [now rewrite state_eta|].
    rewrite (truthy_some _ T1) at 1 2. reflexivity.
  - assert (Hex : existsb cond (users (db st)) = true).
    { rewrite <- (existsb_filter cond u_id), Hf. reflexivity. }
    rewrite Hex. cbn [tables upcoming fst snd]. now rewrite state_eta.
Qed.

(** A registration that fails the checks of lines 33 and 37 is refused before
    any query. *)
Lemma register_invalid e b st :
  valid_registration b = false ->
  snd (register e (Some b) st) = st
  /\ (fst (register e (Some b) st) = json_ (refusal "請填寫所有欄位")
      \/ fst (register e (Some b) st) = json_ (refusal "兩次輸入的密碼不一致")).
Proof.
  unfold valid_registration, register. intros H.
  destruct (JS.truthy (field "username" b)); cbn [negb orb andb] in *; [|auto].
  destruct (JS.truthy (field "email" b)); cbn [negb orb andb] in *; [|auto].
  destruct (JS.truthy (field "password" b)); cbn [negb orb andb] in *; [|auto].
  destruct (JS.truthy (field "confirm-password" b)); cbn [negb orb andb] in *;
    [|auto].
  rewrite H. cbn. auto.
Qed.

Lemma complete_valid_registration b :
  complete_registration b = true -> valid_registration b = true.
Proof.
  unfold complete_registration, valid_registration. intros H.
  rewrite !andb_true_iff in H. destruct H as [[[[T1 T2] T3] T4] T5].
  rewrite !filled_truthy by assumption.
  rewrite (filled_some _ T3), (filled_some _ T4). exact T5.
Qed.

Lemma where_text a b : where_ (JStr a) (JStr b) = Some (matches a b).
Proof. reflexivity. Qed.

(** The username of a new row depends on the username parameter alone. *)
Lemma user_texts_username username email u m :
  user_texts username email = Some (u, m) ->
  sql_text "username" [] username = Some u.
Proof.
  unfold user_texts. destruct (sql_text "username" _ _); [|discriminate].
  destruct (sql_text "email" _ _); [|discriminate]. congruence.
Qed.

(** A complete registration, by cases on the two queries. *)
Lemma register_complete e b st :
  complete_registration b = true ->
  let u := text_of (field "username" b) in
  let m := text_of (field "email" b) in
  let p := text_of (field "password" b) in
  register e (Some b) st =
  if hd false (env_outages e)
  then (json_ (refusal "註冊失敗，系統錯誤"), st)
  else if taken u m (db st)
  then (json_ (refusal "使用者名稱或 Email 已被註冊"), st)
  else if hd false (tl (env_outages e))
  then (json_ (refusal "註冊失敗，系統錯誤"), st)
  else
    (json_ (JObj [("success", JBool true); ("message", JStr "註冊成功！");
                  ("username", JStr u)]),
     mkState
       (mkDatabase
          (users (db st)
           ++ [mkUser (users_auto_increment (db st)) u m
                 (bcrypt_hash p 10 (env_salt e)) (env_now e)])
          (messages (db st)) (users_auto_increment (db st) + 1)
          (messages_auto_increment (db st)))
       (mkSession (Some (users_auto_increment (db st))) (Some (JStr u)))).
Proof.
  intros Hc. rewrite (register_run e b st (complete_valid_registration b Hc)).
  unfold complete_registration in Hc.
  rewrite !andb_true_iff in Hc. destruct Hc as [[[[T1 T2] T3] T4] T5].
  cbv zeta. rewrite (filled_val _ T1), (filled_val _ T2).
  unfold found. rewrite where_text. cbn [user_texts sql_text].
  destruct (hd false (env_outages e)); [reflexivity|].
  unfold taken. rewrite <- !(existsb_filter _ u_id).
  destruct (filter _ _) as [|x l] eqn:Hf; cbn [map length Nat.ltb Nat.leb];
    [|reflexivity].
  destruct (field "password" b) as [[| | |[|c s]| | | |]|];
    try discriminate T3.
  reflexivity.
Qed.

(** The [try] block of the login: the lookup and the verification. *)
Lemma login_run e b st :
  valid_login b = true ->
  let username := JS.val (field "username" b) in
  login e (Some b) st =
  if hd false (env_outages e) then (json_ (refusal "系統錯誤"), st)
  else
    match found username username (db st) with
    | None => (json_ (refusal "系統錯誤"), st)
    | Some [] => (json_ (refusal "帳號或密碼錯誤"), st)
    | Some (a :: _) =>
        match field "password" b with
        | Some (JStr p) =>
            if bcrypt_compare p (u_password a)
            then (json_ (JObj [("success", JBool true);
                               ("message", JStr "登入成功！");
                               ("username", JStr (u_username a))]),
                  mkState (db st)
                    (mkSession (Some (u_id a)) (Some (JStr (u_username a)))))
            else (json_ (refusal "帳號或密碼錯誤"), st)
        | _ => (json_ (refusal "系統錯誤"), st)
        end
    end.
Proof.
  unfold valid_login. intros H. apply andb_true_iff in H as [T1 T2].
  cbv zeta. unfold login. rewrite T1, T2. cbn [negb orb].
  unfold try_catch, bind, select_user, pool_query, ret, found.
  cbn [tables upcoming fst snd].
  destruct (hd false (env_outages e)); cbn [tables upcoming fst snd];
    [now rewrite state_eta|].
  destruct (where_ _ _) as [cond|]; cbn [tables upcoming fst snd];
    [|now rewrite state_eta].
  destruct (filter cond (users (db st))) as [|a l];
    cbn [hd_error tables upcoming fst snd]; [now rewrite state_eta|].
  rewrite (truthy_some _ T2). cbn [JS.val].
  destruct (JS.val (field "password" b)); unfold compare, throw, ret;
    cbn [tables upcoming fst snd]; try now rewrite state_eta.
  destruct (bcrypt_compare _ _); cbn [tables upcoming fst snd];
    [reflexivity|now rewrite state_eta].
Qed.

Lemma login_invalid e b st :
  valid_login b = false ->
  login e (Some b) st = (json_ (refusal "請填寫所有欄位"), st).
Proof.
  unfold valid_login, login. intros H.
  destruct (JS.truthy (field "username" b)); cbn [negb orb andb] in *;
    [|reflexivity].
  now rewrite H.
Qed.

(** Without a body the login reads the object without properties. *)
Lemma login_bodiless e st : login e None st = login e (Some []) st.
Proof. reflexivity. Qed.

Lemma complete_valid_login b :
  complete_login b = true -> valid_login b = true.
Proof.
  unfold complete_login, valid_login. intros H.
  apply andb_true_iff in H as [T1 T2]. now rewrite !filled_truthy.
Qed.

(** A complete login, by cases on the query and the verification. *)
Lemma login_complete e b st :
  complete_login b = true ->
  login e (Some b) st =
  if hd false (env_outages e)
  then (json_ (refusal "系統錯誤"), st)
  else
    match account_for (text_of (field "username" b)) (db st) with
    | Some a =>
        if bcrypt_compare (text_of (field "password" b)) (u_password a)
        then (json_ (JObj [("success", JBool true);
                           ("message", JStr "登入成功！");
                           ("username", JStr (u_username a))]),
              mkState (db st)
                (mkSession (Some (u_id a)) (Some (JStr (u_username a)))))
        else (json_ (refusal "帳號或密碼錯誤"), st)
    | None => (json_ (refusal "帳號或密碼錯誤"), st)
    end.
Proof.
  intros Hc. rewrite (login_run e b st (complete_valid_login b Hc)).
  unfold complete_login in Hc. apply andb_true_iff in Hc as [T1 T2].
  cbv zeta. rewrite (filled_val _ T1).
  unfold found, account_for. rewrite where_text.
  destruct (hd false (env_outages e)); [reflexivity|].
  destruct (filter _ _); [reflexivity|]. cbn [hd_error].
  destruct (field "password" b) as [[| | |[|c s]| | | |]|];
    try discriminate T2.
  reflexivity.
Qed.

(** The [try] block of the contact route: the insert. *)
Lemma contact_run e b st :
  logged_in st = true -> valid_letter b = true ->
  let sorry := (json_ (refusal "留言發送失敗，請稍後再試"), st) in
  contact e (Some b) st =
  if hd false (env_outages e) then sorry
  else
    match message_texts (JS.num (userId (sess st)))
            (JS.val (field "name" b)) (JS.val (field "email" b))
            (JS.val (field "subject" b)) (JS.val (field "message" b)) with
    | Some (name, email, subject, text) =>
        if existsb (fun u => u_id u =? JS.num (userId (sess st))) (users (db st))
        then
          (json_ (JObj [("success", JBool true);
                        ("message", JStr "留言發送成功！感謝您的聯繫。")]),
           mkState
             (mkDatabase (users (db st))
                (messages (db st)
                 ++ [mkMessage (messages_auto_increment (db st))
                       (Some (JS.num (userId (sess st))))
                       name email subject text (env_now e)])
                (users_auto_increment (db st))
                (messages_auto_increment (db st) + 1))
             (sess st))
        else sorry
    | None => sorry
    end.
Proof.
  unfold valid_letter. intros Hl H.
  rewrite !andb_true_iff in H. destruct H as [[[T1 T2] T3] T4].
  cbv zeta. unfold contact. fold (logged_in st). rewrite Hl, T1, T2, T3, T4.
  cbn [negb orb].
  unfold try_catch, bind, insert_message, pool_query, ret.
  cbn [tables upcoming fst snd].
  destruct (hd false (env_outages e)); cbn [tables upcoming fst snd];
    [now rewrite state_eta|].
  destruct (message_texts _ _ _ _ _) as [[[[name email] subject] text]|];
    cbn [tables upcoming fst snd]; [|now rewrite state_eta].
  destruct (existsb _ _); cbn [tables upcoming fst snd];
    [reflexivity|now rewrite state_eta].
Qed.

Lemma contact_invalid e b st :
  logged_in st = true -> valid_letter b = false ->
  contact e (Some b) st = (json_ (refusal "請填寫所有欄位"), st).
Proof.
  unfold valid_letter, contact. fold (logged_in st). intros -> H.
  cbn [negb].
  destruct (JS.truthy (field "name" b)); cbn [negb orb andb] in *;
    [|reflexivity].
  destruct (JS.truthy (field "email" b)); cbn [negb orb andb] in *;
    [|reflexivity].
  destruct (JS.truthy (field "subject" b)); cbn [negb orb andb] in *;
    [|reflexivity].
  now rewrite H.
Qed.

Lemma contact_logged_out e b st :
  logged_in st = false ->
  contact e b st = (status_json 401 (refusal "請先登入會員"), st).
Proof. unfold contact. fold (logged_in st). now intros ->. Qed.

Lemma contact_bodiless e st :
  logged_in st = true -> contact e None st = (uncaught, st).
Proof. unfold contact. fold (logged_in st). now intros ->. Qed.


(** *** The invariant *)

Lemma consistent_init : consistent init.
Proof.
  split; cbn; try lia; try constructor. intros i H; discriminate.
Qed.

Ltac kept := split; cbn; assumption.

Lemma register_consistent e b st :
  consistent st -> consistent (snd (register e b st)).
Proof.
  intros Hc. destruct b as [b|]; [|exact Hc].
  destruct (valid_registration b) eqn:Hv;
    [|now rewrite (proj1 (register_invalid e b st Hv))].
  rewrite (register_run e b st Hv). cbv zeta.
  destruct (hd false (env_outages e)); [exact Hc|].
  destruct (found _ _ _) as [[|x l]|]; try exact Hc.
  destruct (field "password" b) as [[]|]; try exact Hc.
  destruct (hd false (tl (env_outages e))); [exact Hc|].
  destruct (user_texts _ _) as [[u m]|] eqn:Hu; [|exact Hc].
  apply user_texts_username in Hu.
  destruct (taken u m (db st)); [exact Hc|].
  destruct Hc as [Hc Hb Hnd Hs].
  split; cbn.
  - lia.
  - apply Forall_app. split.
    + eapply Forall_impl; [|exact Hb]. cbn. intros; lia.
    + constructor; [cbn; lia|constructor].
  - rewrite map_app. cbn. apply NoDup_snoc; [assumption|].
    intros Hin. apply in_map_iff in Hin as (w & Hid & Hin).
    rewrite Forall_forall in Hb. specialize (Hb w Hin). lia.
  - intros i Hi. injection Hi as <-. eexists. eexists.
    split; [apply in_or_app; right; left; reflexivity|].
    cbn. split; [reflexivity|]. split; [reflexivity|]. exact Hu.
Qed.

Lemma found_In a b d l x :
  found a b d = Some l -> In x l -> In x (users d).
Proof.
  unfold found. destruct (where_ a b) as [cond|]; [|discriminate].
  intros [= <-] Hin. now apply filter_In in Hin.
Qed.

Lemma login_consistent e b st :
  consistent st -> consistent (snd (login e b st)).
Proof.
  intros Hc. destruct b as [b|]; [|rewrite login_bodiless].
  2:{ now rewrite login_invalid by reflexivity. }
  destruct (valid_login b) eqn:Hv; [|now rewrite (login_invalid e b st Hv)].
  rewrite (login_run e b st Hv). cbv zeta.
  destruct (hd false (env_outages e)); [exact Hc|].
  destruct (found _ _ _) as [[|a l]|] eqn:Hf; try exact Hc.
  destruct (field "password" b) as [[]|]; try exact Hc.
  destruct (bcrypt_compare _ _); [|exact Hc].
  destruct Hc as [Hc Hb Hnd Hs].
  split; cbn; try assumption.
  intros i Hi. injection Hi as <-. exists a, (JStr (u_username a)).
  split; [|now cbn]. eapply found_In; [exact Hf|now left].
Qed.

Lemma contact_consistent e b st :
  consistent st -> consistent (snd (contact e b st)).
Proof.
  intros Hc. destruct (logged_in st) eqn:Hl;
    [|now rewrite contact_logged_out].
  destruct b as [b|]; [|now rewrite contact_bodiless].
  destruct (valid_letter b) eqn:Hv; [|now rewrite contact_invalid].
  rewrite (contact_run e b st Hl Hv). cbv zeta.
  destruct (hd false (env_outages e)); [exact Hc|].
  destruct (message_texts _ _ _ _ _) as [[[[name email] subject] text]|];
    [|exact Hc].
  destruct (existsb _ _); [|exact Hc].
  destruct Hc as [Hc Hb Hnd Hs]. kept.
Qed.

(** *** Doubles *)

Lemma to_double_exact n :
  Z.abs n <= JS.MAX_SAFE_INTEGER -> JS.to_double n = n.
Proof.
  intros H. unfold JS.to_double. apply Z.leb_le in H. now rewrite H.
Qed.

(** Rounding keeps the sign. *)
Lemma to_double_negative n : n < 0 -> JS.to_double n < 0.
Proof.
  intros Hn. unfold JS.to_double.
  destruct (Z.abs n <=? JS.MAX_SAFE_INTEGER) eqn:E; [assumption|].
  apply Z.leb_gt in E. unfold JS.MAX_SAFE_INTEGER in E.
  set (a := Z.abs n) in *.
  assert (Hl : 53 <= Z.log2 a).
  { apply Z.log2_le_pow2; lia. }
  set (e := Z.log2 a - 52).
  assert (He : 0 < 2 ^ e) by (apply Z.pow_pos_nonneg; lia).
  assert (Hq : 0 < a / 2 ^ e).
  { apply Z.div_str_pos. split; [assumption|].
    transitivity (2 ^ Z.log2 a).
    - apply Z.pow_le_mono_r; lia.
    - apply Z.log2_spec. lia. }
  assert (Hbig : 0 < 2 ^ 1024) by (apply Z.pow_pos_nonneg; lia).
  rewrite Z.sgn_neg by assumption.
  destruct (_ || _); nia.
Qed.

(** With an exact page the handler's offset is [(page - 1) * 10], and the
    server takes it. *)
Lemma offset_exact page :
  exact_page page ->
  offset_of page = (page - 1) * 10 /\ in_range (offset_of page) = true.
Proof.
  intros [Hp Hb]. unfold offset_of, JS.mul, JS.sub.
  unfold JS.MAX_SAFE_INTEGER in Hb.
  rewrite (to_double_exact (page - 1))
    by (unfold JS.MAX_SAFE_INTEGER; lia).
  rewrite to_double_exact by (unfold JS.MAX_SAFE_INTEGER; lia).
  split; [reflexivity|].
  unfold in_range, MAX_OFFSET. apply andb_true_iff.
  split; apply Z.leb_le; lia.
Qed.

(** A negative page makes a negative offset, which the server rejects. *)
Lemma offset_negative page : page < 0 -> in_range (offset_of page) = false.
Proof.
  intros Hp. unfold offset_of, JS.mul, JS.sub, in_range.
  assert (H1 : JS.to_double (page - 1) < 0)
    by (apply to_double_negative; lia).
  assert (H2 : JS.to_double (JS.to_double (page - 1) * 10) < 0)
    by (apply to_double_negative; lia).
  apply andb_false_iff. left. apply Z.leb_gt. exact H2.
Qed.

(** *** The try block of the admin route *)

(** What the block resolves to, or that it is rejected, in terms of the
    outages, the lookup and the two offsets. *)
Lemma admin_block_run e q st l :
  fst (admin_block e q st l) =
  if hd false (upcoming l) then Rejected
  else if not_admin (usernames_of (JS.num (userId (sess st))) (tables l))
  then Resolved (status_json 403 (refusal "權限不足"), sess st)
  else if hd false (tl (upcoming l))
          || hd false (tl (tl (upcoming l)))
          || negb (in_range (offset_of (page_of "page_users" q)))
          || hd false (tl (tl (tl (upcoming l))))
          || hd false (tl (tl (tl (tl (upcoming l)))))
          || negb (in_range (offset_of (page_of "page_msgs" q)))
  then Rejected
  else Resolved (json_ (admin_payload e q (tables l)), sess st).
Proof.
  unfold admin_block, bind, select_username, count_users, count_messages,
    select_users_page, select_messages_page, pool_query, ret.
  fold (page_of "page_users" q) (page_of "page_msgs" q).
  fold (offset_of (page_of "page_users" q)) (offset_of (page_of "page_msgs" q)).
  cbn [tables upcoming fst snd].
  destruct (hd false (upcoming l)); cbn [fst snd tables upcoming orb];
    [easy|].
  fold (usernames_of (JS.num (userId (sess st))) (tables l)).
  destruct (not_admin _); cbn [fst snd tables upcoming orb]; [easy|].
  destruct (hd false (tl (upcoming l))); cbn [fst snd tables upcoming orb];
    [easy|].
  destruct (hd false (tl (tl (upcoming l))));
    cbn [fst snd tables upcoming orb]; [easy|].
  change (in_range 10) with true. cbn [andb].
  destruct (in_range (offset_of (page_of "page_users" q)));
    cbn [fst snd tables upcoming orb negb]; [|easy].
  destruct (hd false (tl (tl (tl (upcoming l)))));
    cbn [fst snd tables upcoming orb]; [easy|].
  destruct (hd false (tl (tl (tl (tl (upcoming l))))));
    cbn [fst snd tables upcoming orb]; [easy|].
  destruct (in_range (offset_of (page_of "page_msgs" q)));
    cbn [fst snd tables upcoming orb negb]; easy.
Qed.

(** It changes no table. *)
Lemma admin_block_tables e q st l :
  tables (snd (admin_block e q st l)) = tables l.
Proof.
  unfold admin_block, bind, select_username, count_users, count_messages,
    select_users_page, select_messages_page, pool_query, ret.
  cbn [tables upcoming fst snd].
  destruct (hd false (upcoming l)); cbn [fst snd tables upcoming]; [easy|].
  destruct (not_admin _); cbn [fst snd tables upcoming]; [easy|].
  destruct (hd false (tl (upcoming l))); cbn [fst snd tables upcoming];
    [easy|].
  destruct (hd false (tl (tl (upcoming l)))); cbn [fst snd tables upcoming];
    [easy|].
  destruct (in_range 10 && in_range _); cbn [fst snd tables upcoming];
    [|easy].
  destruct (hd false (tl (tl (tl (upcoming l)))));
    cbn [fst snd tables upcoming]; [easy|].
  destruct (hd false (tl (tl (tl (tl (upcoming l))))));
    cbn [fst snd tables upcoming]; [easy|].
  destruct (in_range 10 && in_range _); cbn [fst snd tables upcoming]; easy.
Qed.

(** When the lookup is served and does not find admin, the block refuses. *)
Lemma admin_block_refuses e q st l :
  hd false (upcoming l) = false ->
  not_admin (usernames_of (JS.num (userId (sess st))) (tables l)) = true ->
  fst (admin_block e q st l)
  = Resolved (status_json 403 (refusal "權限不足"), sess st).
Proof.
  intros Hq Hna. now rewrite admin_block_run, Hq, Hna.
Qed.

(** When every query is served, the lookup finds admin and the server takes
    both offsets, the block resolves to the payload. *)
Lemma admin_block_serves e q st l :
  quiet (upcoming l) = true ->
  not_admin (usernames_of (JS.num (userId (sess st))) (tables l)) = false ->
  in_range (offset_of (page_of "page_users" q)) = true ->
  in_range (offset_of (page_of "page_msgs" q)) = true ->
  fst (admin_block e q st l)
  = Resolved (json_ (admin_payload e q (tables l)), sess st).
Proof.
  intros Hq Hna Hu Hm.
  pose proof (quiet_tl _ Hq) as H1. pose proof (quiet_tl _ H1) as H2.
  pose proof (quiet_tl _ H2) as H3. pose proof (quiet_tl _ H3) as H4.
  apply quiet_hd in Hq, H1, H2, H3, H4.
  now rewrite admin_block_run, Hq, Hna, H1, H2, H3, H4, Hu, Hm.
Qed.

Lemma admin_data_state e q st : snd (admin_data e q st) = st.
Proof.
  unfold admin_data. destruct (negb _); [reflexivity|].
  unfold try_catch.
  pose proof (admin_block_tables e q st (mkLink (db st) (env_outages e))) as Ht.
  pose proof (admin_block_run e q st (mkLink (db st) (env_outages e))) as Hr.
  cbn [tables upcoming] in Ht, Hr.
  destruct (admin_block e q st _) as [[[r s]|] l]; cbn [fst snd] in *.
  - rewrite Ht.
    assert (s = sess st) as ->.
    { repeat match type of Hr with
             | _ = (if ?c then _ else _) => destruct c
             end; congruence. }
    now destruct st.
  - rewrite Ht. now destruct st.
Qed.

Lemma handle_consistent e r st :
  consistent st -> consistent (snd (handle e r st)).
Proof.
  intros H. destruct r; cbn [handle].
  - now apply register_consistent.
  - now apply login_consistent.
  - unfold check_auth. now destruct (JS.truthy_num _).
  - destruct H. split; cbn; try assumption. discriminate.
  - now apply contact_consistent.
  - now rewrite admin_data_state.
Qed.

Lemma reachable_consistent st : reachable st -> consistent st.
Proof.
  induction 1 as [|e r st _ IH]; [apply consistent_init|].
  now apply handle_consistent.
Qed.

(** In a consistent state the lookup of the admin route returns exactly the
    username that the database reads in the value the session carries. *)
Lemma stored_is_session_username st :
  consistent st -> logged_in st = true ->
  exists v name,
    username (sess st) = Some v /\ sql_text "username" [] v = Some name
    /\ stored_usernames st = [name].
Proof.
  intros [_ _ Hu Hs] Hl. apply truthy_num_some in Hl as [Hid _].
  destruct (Hs _ Hid) as (u & v & Hin & Hi & Hn & Ht).
  exists v, (u_username u). split; [assumption|]. split; [assumption|].
  unfold stored_usernames, usernames_of. rewrite <- Hi.
  now rewrite (filter_unique _ _ Hu Hin).
Qed.

(** The response of the admin route, by cases. *)
Lemma admin_data_cases e q st :
  let r := fst (admin_data e q st) in
  (logged_in st = false /\ r = status_json 401 (refusal "請先登入"))
  \/ (logged_in st = true /\ not_admin (stored_usernames st) = true
      /\ hd false (env_outages e) = false
      /\ r = status_json 403 (refusal "權限不足"))
  \/ (logged_in st = true /\ not_admin (stored_usernames st) = false
      /\ in_range (offset_of (page_of "page_users" q)) = true
      /\ in_range (offset_of (page_of "page_msgs" q)) = true
      /\ r = json_ (admin_payload e q (db st)))
  \/ (logged_in st = true
      /\ fst (admin_block e q st (mkLink (db st) (env_outages e))) = Rejected
      /\ r = status_json 500 (refusal "系統錯誤")).
Proof.
  cbv zeta. unfold admin_data. fold (logged_in st).
  destruct (logged_in st) eqn:Hl; cbn [negb]; [|now left].
  right. rewrite fst_try_catch, admin_block_run. cbn [tables upcoming].
  fold (stored_usernames st).
  destruct (hd false (env_outages e)); [right; right; easy|].
  destruct (not_admin (stored_usernames st)); [left; easy|].
  destruct (in_range (offset_of (page_of "page_users" q)));
    cbn [negb]; rewrite ?orb_true_r; cbn [orb]; [|right; right; easy].
  destruct (in_range (offset_of (page_of "page_msgs" q)));
    cbn [negb]; rewrite ?orb_true_r; cbn [orb]; [|right; right; easy].
  rewrite !orb_false_r.
  destruct (_ || _); [right; right; easy|].
  right; left. easy.
Qed.

(** *** The claims about the admin route *)

(** C1, as the code has it.  A request to /api/admin/data without an active
    session is answered 401 with success:false.  With an active session
    whose username the database does not read as "admin" it is answered with
    success:false and neither block of rows, and the status is 403 once the
    database serves the lookup (500 when it does not); a string is read as
    itself, so this is the answer to every active session whose username is a
    string other than "admin".  A response that carries a block of rows went
    to an active session whose username the database reads as "admin"; when
    that username is a string, it is the string "admin". *)
Theorem admin_data_gate e q st :
  reachable st ->
  let r := fst (admin_data e q st) in
  let refused :=
    failing r = true
    /\ get "users" (body r) = None /\ get "messages" (body r) = None
    /\ (hd false (env_outages e) = false -> status r = 403)
    /\ (hd false (env_outages e) = true -> status r = 500) in
  (logged_in st = false ->
     status r = 401 /\ failing r = true) /\
  (logged_in st = true ->
   (forall v, username (sess st) = Some v ->
      sql_text "username" [] v <> Some "admin") ->
     refused) /\
  (forall s, logged_in st = true ->
     username (sess st) = Some (JStr s) -> s <> "admin" -> refused) /\
  (get "users" (body r) <> None \/ get "messages" (body r) <> None ->
     logged_in st = true
     /\ (exists v, username (sess st) = Some v
                   /\ sql_text "username" [] v = Some "admin")
     /\ (forall s, username (sess st) = Some (JStr s) -> s = "admin")).
Proof.
  intros Hreach r refused. subst refused. apply reachable_consistent in Hreach.
  assert (H :
    (logged_in st = false -> status r = 401 /\ failing r = true) /\
    (logged_in st = true ->
     (forall v, username (sess st) = Some v ->
        sql_text "username" [] v <> Some "admin") ->
       failing r = true
       /\ get "users" (body r) = None /\ get "messages" (body r) = None
       /\ (hd false (env_outages e) = false -> status r = 403)
       /\ (hd false (env_outages e) = true -> status r = 500)) /\
    (get "users" (body r) <> None \/ get "messages" (body r) <> None ->
       logged_in st = true
       /\ (exists v, username (sess st) = Some v
                     /\ sql_text "username" [] v = Some "admin")
       /\ (forall s, username (sess st) = Some (JStr s) -> s = "admin"))).
  {
    pose proof (stored_is_session_username st Hreach) as Hname.
    destruct (admin_data_cases e q st) as
      [[Hl Hr]|[(Hl & Hna & Hq & Hr)|[(Hl & Hna & _ & _ & Hr)|(Hl & Hb & Hr)]]];
      fold r in Hr; rewrite Hr; cbn [status body status_json json_].
    - split; [easy|]. split; [congruence|]. cbn. intros [H|H]; congruence.
    - split; [congruence|]. split.
      + intros _ _. repeat split; congruence.
      + cbn. intros [H|H]; congruence.
    - destruct (Hname Hl) as (v & name & Hn & Ht & Hs). rewrite Hs in Hna.
      cbn in Hna. apply negb_false_iff, String.eqb_eq in Hna. subst name.
      split; [congruence|]. split.
      + intros _ Hne. exfalso. exact (Hne v Hn Ht).
      + intros _. split; [assumption|]. split; [now exists v|].
        intros s Hs'. rewrite Hs' in Hn. injection Hn as <-.
        cbn in Ht. congruence.
    - split; [congruence|].
      destruct (Hname Hl) as (v & name & Hn & Ht & Hs).
      split.
      + intros _ Hne. repeat split. intros Hq. exfalso.
        assert (Hna : not_admin (stored_usernames st) = true).
        { rewrite Hs. cbn. apply negb_true_iff, String.eqb_neq.
          intros ->. exact (Hne v Hn Ht). }
        rewrite (admin_block_refuses e q st (mkLink (db st) (env_outages e))
                   Hq Hna) in Hb.
        discriminate.
      + cbn. intros [H|H]; congruence.
  }
  destruct H as (H1 & H2 & H3).
  split; [exact H1|]. split; [exact H2|]. split; [|exact H3].
  intros s Hl Hs Hne. apply H2; [exact Hl|].
  intros v Hv. rewrite Hs in Hv. injection Hv as <-. cbn. congruence.
Qed.



(** *** Registration *)


(** *** Login *)


(** *** Contact *)


(** *** The round trip *)



(** *** Statuses of the refusals *)

(** What a registration does: it is refused and changes nothing, or it
    appends the row that the database reads in the submitted values. *)
Lemma register_cases e (b : fields) st :
  (exists m, register e (Some b) st = (json_ (refusal m), st))
  \/ (exists u m p,
        valid_registration b = true
        /\ user_texts (JS.val (field "username" b)) (JS.val (field "email" b))
           = Some (u, m)
        /\ field "password" b = Some (JStr p)
        /\ taken u m (db st) = false
        /\ register e (Some b) st =
           (json_ (JObj [("success", JBool true);
                         ("message", JStr "註冊成功！");
                         ("username", JS.val (field "username" b))]),
            mkState
              (mkDatabase
                 (users (db st)
                  ++ [mkUser (users_auto_increment (db st)) u m
                        (bcrypt_hash p 10 (env_salt e)) (env_now e)])
                 (messages (db st)) (users_auto_increment (db st) + 1)
                 (messages_auto_increment (db st)))
              (mkSession (Some (users_auto_increment (db st)))
                 (Some (JS.val (field "username" b)))))).
Proof.
  destruct (valid_registration b) eqn:Hv.
  - rewrite (register_run e b st Hv). cbv zeta.
    destruct (hd false (env_outages e)); [left; eauto|].
    destruct (found _ _ _) as [[|x l]|]; try (left; eauto; fail).
    destruct (field "password" b) as [[| | |p| | | |]|];
      try (left; eauto; fail).
    destruct (hd false (tl (env_outages e))); [left; eauto|].
    destruct (user_texts _ _) as [[u m]|]; [|left; eauto].
    destruct (taken u m (db st)) eqn:Ht; [left; eauto|].
    right. exists u, m, p. repeat split. exact Ht.
  - left. destruct (register_invalid e b st Hv) as [Hs [Hr|Hr]];
      eexists; rewrite (surjective_pairing (register _ _ _)), Hs, Hr;
      reflexivity.
Qed.

(** What a login does: it is refused and changes nothing, or it signs in the
    first row of the lookup, whose hash the password verifies against. *)
Lemma login_cases e b st :
  (exists m, login e b st = (json_ (refusal m), st))
  \/ (exists body a l p,
        b = Some body
        /\ valid_login body = true
        /\ found (JS.val (field "username" body)) (JS.val (field "username" body))
             (db st) = Some (a :: l)
        /\ field "password" body = Some (JStr p)
        /\ bcrypt_compare p (u_password a) = true
        /\ hd false (env_outages e) = false
        /\ login e b st =
           (json_ (JObj [("success", JBool true);
                         ("message", JStr "登入成功！");
                         ("username", JStr (u_username a))]),
            mkState (db st)
              (mkSession (Some (u_id a)) (Some (JStr (u_username a)))))).
Proof.
  destruct b as [b|]; [|left; now eexists].
  destruct (valid_login b) eqn:Hv;
    [|left; rewrite (login_invalid e b st Hv); eauto].
  rewrite (login_run e b st Hv). cbv zeta.
  destruct (hd false (env_outages e)); [left; eauto|].
  destruct (found _ _ _) as [[|a l]|] eqn:Hf; try (left; eauto; fail).
  destruct (field "password" b) as [[| | |p| | | |]|] eqn:Hp;
    try (left; eauto; fail).
  destruct (bcrypt_compare _ _) eqn:Hc; [|left; eauto].
  right. exists b, a, l, p. repeat split; assumption.
Qed.

(** What a contact submission does. *)
Lemma contact_cases e b st :
  (logged_in st = false
   /\ contact e b st = (status_json 401 (refusal "請先登入會員"), st))
  \/ (logged_in st = true /\ b = None /\ contact e b st = (uncaught, st))
  \/ (logged_in st = true
      /\ exists m, contact e b st = (json_ (refusal m), st))
  \/ (logged_in st = true
      /\ exists body name email subject text,
           b = Some body
           /\ valid_letter body = true
           /\ message_texts (JS.num (userId (sess st)))
                (JS.val (field "name" body)) (JS.val (field "email" body))
                (JS.val (field "subject" body)) (JS.val (field "message" body))
              = Some (name, email, subject, text)
           /\ existsb (fun u => u_id u =? JS.num (userId (sess st)))
                (users (db st)) = true
           /\ contact e b st =
              (json_ (JObj [("success", JBool true);
                            ("message", JStr "留言發送成功！感謝您的聯繫。")]),
               mkState
                 (mkDatabase (users (db st))
                    (messages (db st)
                     ++ [mkMessage (messages_auto_increment (db st))
                           (Some (JS.num (userId (sess st))))
                           name email subject text (env_now e)])
                    (users_auto_increment (db st))
                    (messages_auto_increment (db st) + 1))
                 (sess st))).
Proof.
  destruct (logged_in st) eqn:Hl;
    [right|left; split; [reflexivity|now apply contact_logged_out]].
  destruct b as [b|];
    [right|left; split; [reflexivity|split; [reflexivity|]];
           now apply contact_bodiless].
  destruct (valid_letter b) eqn:Hv;
    [|left; split; [reflexivity|]; rewrite (contact_invalid e b st Hl Hv);
      eauto].
  rewrite (contact_run e b st Hl Hv). cbv zeta.
  destruct (hd false (env_outages e)); [left; eauto|].
  destruct (message_texts _ _ _ _ _) as [[[[name email] subject] text]|] eqn:H1;
    [|left; eauto].
  destruct (existsb _ _) eqn:Hfk; [|left; eauto].
  right. split; [reflexivity|].
  exists b, name, email, subject, text. repeat split; assumption.
Qed.

(** C3, as the code has it.  A registration without a body, and a contact
    submission without a body by an active session, are answered by the
    error page of the framework: status 500 and no JSON at all.  Every other
    response is JSON, and every failing one carries exactly success:false
    and a message.  Its status is 200, except for a request to /api/contact
    or /api/admin/data without an active session (401), a request to
    /api/admin/data whose lookup does not find admin (403), and a request to
    /api/admin/data during which a query is rejected (500). *)
Theorem failure_statuses e r st :
  (bodiless r st = true ->
     fst (handle e r st) = uncaught /\ snd (handle e r st) = st) /\
  (bodiless r st = false -> body (fst (handle e r st)) <> JErrorPage) /\
  (failing (fst (handle e r st)) = true ->
     (exists m, body (fst (handle e r st)) = refusal m) /\
     match r with
     | GetAdminData q =>
         if logged_in st
         then match fst (admin_block e q st (mkLink (db st) (env_outages e))) with
              | Rejected => status (fst (handle e r st)) = 500
              | Resolved _ =>
                  status (fst (handle e r st)) = 403
                  /\ not_admin (stored_usernames st) = true
              end
         else status (fst (handle e r st)) = 401
     | PostContact _ =>
         if logged_in st
         then status (fst (handle e r st)) = 200
         else status (fst (handle e r st)) = 401
     | _ => status (fst (handle e r st)) = 200
     end).
Proof.
  split; [|split].
  - destruct r as [[b|]|b| | |[b|]|q]; cbn [bodiless handle]; try discriminate.
    + now intros _.
    + intros Hl. now rewrite (contact_bodiless e st Hl).
  - destruct r as [[b|]|b| | |b|q]; cbn [bodiless handle].
    + intros _.
      destruct (register_cases e b st) as [[m ->]|(u & m & p & H)];
        [discriminate|].
      destruct H as (_ & _ & _ & _ & ->). discriminate.
    + discriminate.
    + intros _.
      destruct (login_cases e b st) as [[m ->]|(x & a & l & p & H)];
        [discriminate|].
      destruct H as (_ & _ & _ & _ & _ & _ & ->). discriminate.
    + intros _. unfold check_auth. now destruct (JS.truthy_num _).
    + discriminate.
    + intros Hb.
      destruct (contact_cases e b st) as
        [[Hl ->]|[(Hl & -> & Hr)|[(Hl & m & ->)|(Hl & x & H)]]];
        try discriminate.
      * cbn in Hb. congruence.
      * destruct H as (n & em & s & t & _ & _ & _ & _ & ->).
        discriminate.
    + intros _.
      destruct (admin_data_cases e q st) as
        [[_ Hr]|[(_ & _ & _ & Hr)|[(_ & _ & _ & _ & Hr)|(_ & _ & Hr)]]];
        rewrite Hr; discriminate.
  - destruct r as [[b|]|b| | |b|q]; cbn [handle]; intros Hf.
    + destruct (register_cases e b st) as [[m Hr]|(u & m & p & H)].
      * rewrite Hr. cbn. eauto.
      * destruct H as (_ & _ & _ & _ & Hr). rewrite Hr in Hf.
        discriminate.
    + discriminate.
    + destruct (login_cases e b st) as [[m Hr]|(x & a & l & p & H)].
      * rewrite Hr. cbn. eauto.
      * destruct H as (_ & _ & _ & _ & _ & _ & Hr). rewrite Hr in Hf.
        discriminate.
    + unfold check_auth in Hf.
      destruct (JS.truthy_num _); [destruct (username (sess st))|]; discriminate.
    + discriminate.
    + destruct (contact_cases e b st) as
        [[Hl Hr]|[(Hl & _ & Hr)|[(Hl & m & Hr)|(Hl & x & H)]]];
        rewrite Hl.
      * rewrite Hr. cbn. eauto.
      * rewrite Hr in Hf. discriminate.
      * rewrite Hr. cbn. eauto.
      * destruct H as (n & em & s & t & _ & _ & _ & _ & Hr).
        rewrite Hr in Hf. discriminate.
    + destruct (admin_data_cases e q st) as
        [[Hl Hr]|[(Hl & Hna & Hq & Hr)|[(Hl & Hna & _ & _ & Hr)|(Hl & Hb & Hr)]]];
        rewrite Hl; rewrite Hr in *; cbn [status body status_json json_].
      * eauto.
      * rewrite (admin_block_refuses e q st (mkLink (db st) (env_outages e))
                   Hq Hna).
        eauto.
      * discriminate.
      * rewrite Hb. eauto.
Qed.

(** *** What the payloads show *)
















(** *** Pagination *)

Lemma insert_desc_length {A : Type} (key : A -> Z) x l :
  length (insert_desc key x l) = S (length l).
Proof.
  induction l as [|y l IH]; cbn; [reflexivity|].
  destruct (key y <=? key x); cbn; [reflexivity|now rewrite IH].
Qed.

Lemma order_by_desc_length {A : Type} (key : A -> Z) l :
  length (order_by_desc key l) = length l.
Proof.
  induction l as [|x l IH]; cbn; [reflexivity|].
  now rewrite insert_desc_length, IH.
Qed.

Lemma listing_length {A : Type} rank (ident key : A -> Z) l :
  length (listing rank ident key l) = length l.
Proof. unfold listing. now rewrite !order_by_desc_length. Qed.

(** A page holds the rows from the offset on, ten at most. *)
Lemma limit_offset_length {A : Type} (offset : Z) (l : list A) :
  0 <= offset ->
  Z.of_nat (length (limit_offset 10 offset l))
  = Z.max 0 (Z.min 10 (Z.of_nat (length l) - offset)).
Proof.
  intros H. unfold limit_offset. rewrite length_firstn, length_skipn. lia.
Qed.

Lemma users_page_length e d page :
  0 < page ->
  Z.of_nat (length (users_page e d page))
  = Z.max 0 (Z.min 10 (Z.of_nat (length (users d)) - (page - 1) * 10)).
Proof.
  intros H. unfold users_page, users_rows, users_listing.
  rewrite length_map, limit_offset_length by lia.
  now rewrite listing_length.
Qed.

(** [ceil_div] is the ceiling of the quotient. *)
Lemma ceil_div_spec a b :
  0 < b -> b * (JS.ceil_div a b - 1) < a <= b * JS.ceil_div a b.
Proof.
  intros H. unfold JS.ceil_div.
  pose proof (Z.div_mod (- a) b ltac:(lia)).
  pose proof (Z.mod_pos_bound (- a) b H). nia.
Qed.

(** The admin route depends on the query through the two page numbers. *)
Lemma admin_data_pages e q q' st :
  page_of "page_users" q = page_of "page_users" q' ->
  page_of "page_msgs" q = page_of "page_msgs" q' ->
  admin_data e q st = admin_data e q' st.
Proof.
  intros Hu Hm. unfold admin_data, admin_block.
  fold (page_of "page_users" q) (page_of "page_msgs" q).
  fold (page_of "page_users" q') (page_of "page_msgs" q').
  now rewrite Hu, Hm.
Qed.

(** An admin session served by the database with offsets that the server
    takes gets the payload. *)
Lemma admin_data_served e q st :
  admin_session st -> served e ->
  in_range (offset_of (page_of "page_users" q)) = true ->
  in_range (offset_of (page_of "page_msgs" q)) = true ->
  admin_data e q st = (json_ (admin_payload e q (db st)), st).
Proof.
  intros [Hl Hna] Hq Hu Hm.
  rewrite (surjective_pairing (admin_data e q st)), admin_data_state.
  f_equal. unfold admin_data. fold (logged_in st). rewrite Hl. cbn [negb].
  rewrite fst_try_catch, admin_block_serves; try assumption.
  reflexivity.
Qed.

(** With exact pages the payload is made of the two blocks cut at
    [(page - 1) * 10]. *)
Lemma admin_payload_exact e q d :
  exact_page (page_of "page_users" q) -> exact_page (page_of "page_msgs" q) ->
  admin_payload e q d
  = JObj [("success", JBool true);
          ("users", users_block e d (page_of "page_users" q));
          ("messages", messages_block e d (page_of "page_msgs" q))].
Proof.
  intros Hu Hm. unfold admin_payload, users_block, messages_block, users_page,
    messages_page.
  now rewrite (proj1 (offset_exact _ Hu)), (proj1 (offset_exact _ Hm)).
Qed.

(** X20.  A page value that parses to a negative integer makes the offset
    negative: the database rejects the page query and the catch block
    answers 500. *)
Lemma admin_data_negative_page e q st :
  admin_session st -> served e ->
  page_of "page_users" q < 0 \/ page_of "page_msgs" q < 0 ->
  fst (admin_data e q st) = status_json 500 (refusal "系統錯誤").
Proof.
  intros [Hl Hna] Hq Hneg.
  unfold admin_data. fold (logged_in st). rewrite Hl. cbn [negb].
  rewrite fst_try_catch, admin_block_run. cbn [tables upcoming].
  unfold served in Hq. rewrite (quiet_hd _ Hq).
  fold (stored_usernames st). rewrite Hna.
  destruct Hneg as [H|H]; rewrite (offset_negative _ H); cbn [negb];
    now rewrite ?orb_true_r.
Qed.

(** C5, as the code has it.  For an admin session, a database serving the
    queries and page values that parse to nothing, to 0 or to a positive
    integer in the exact range of JavaScript numbers, each block is cut at
    page size 10 from offset (page-1)*10 of the rows ordered newest first,
    and reports the row count as total, the requested page as current_page
    (1 when the value is missing, not numeric or zero), 10 as per_page and
    the ceiling of total/10 as total_pages, which is 0 for no rows.  With 25
    users, page 1 has 10 rows, page 3 has 5 and total_pages is 3. *)
Theorem admin_pagination e q st :
  admin_session st -> served e ->
  exact_page (page_of "page_users" q) -> exact_page (page_of "page_msgs" q) ->
  let pu := page_of "page_users" q in
  let pm := page_of "page_msgs" q in
  let U := Z.of_nat (length (users (db st))) in
  let M := Z.of_nat (length (messages (db st))) in
  fst (admin_data e q st)
  = json_
      (JObj
         [("success", JBool true);
          ("users",
           JObj [("data",
                  JArr (map user_row
                          (limit_offset 10 ((pu - 1) * 10)
                             (listing (env_users_rank e) u_id u_created_at
                                (users (db st))))));
                 ("total", JNum U);
                 ("current_page", JNum pu);
                 ("per_page", JNum 10);
                 ("total_pages", JNum (JS.ceil_div U 10))]);
          ("messages",
           JObj [("data",
                  JArr (map message_row
                          (limit_offset 10 ((pm - 1) * 10)
                             (listing (env_messages_rank e)
                                (fun r => m_id (fst r))
                                (fun r => m_created_at (fst r))
                                (left_join (messages (db st))
                                   (users (db st)))))));
                 ("total", JNum M);
                 ("current_page", JNum pm);
                 ("per_page", JNum 10);
                 ("total_pages", JNum (JS.ceil_div M 10))])])
  /\ (forall k, JS.parseInt (field k q) = None -> page_of k q = 1)
  /\ (forall k n, JS.parseInt (field k q) = Some n -> n <> 0 -> page_of k q = n)
  /\ (forall k, field k q = None -> page_of k q = 1)
  /\ Z.of_nat (length (users_data (body (fst (admin_data e q st)))))
     = Z.max 0 (Z.min 10 (U - (pu - 1) * 10))
  /\ 10 * (JS.ceil_div U 10 - 1) < U <= 10 * JS.ceil_div U 10
  /\ 10 * (JS.ceil_div M 10 - 1) < M <= 10 * JS.ceil_div M 10
  /\ JS.ceil_div 0 10 = 0
  /\ (U = 25 ->
      JS.ceil_div U 10 = 3
      /\ (pu = 1 ->
          length (users_data (body (fst (admin_data e q st)))) = 10%nat)
      /\ (pu = 3 ->
          length (users_data (body (fst (admin_data e q st)))) = 5%nat)).
Proof.
  intros Ha Hq Hu Hm pu pm U M.
  rewrite (admin_data_served e q st Ha Hq (proj2 (offset_exact _ Hu))
             (proj2 (offset_exact _ Hm))).
  cbn [fst]. rewrite (admin_payload_exact e q (db st) Hu Hm).
  destruct Hu as [Hu _], Hm as [Hm _].
  assert (Hlen : Z.of_nat (length (users_page e (db st) pu))
                 = Z.max 0 (Z.min 10 (U - (pu - 1) * 10)))
    by now apply users_page_length.
  split; [reflexivity|].
  split; [intros k Hk; unfold page_of; now rewrite Hk|].
  split.
  { intros k n Hk Hn. unfold page_of. rewrite Hk. cbn.
    apply Z.eqb_neq in Hn. now rewrite Hn. }
  split; [intros k Hk; unfold page_of; now rewrite Hk|].
  split; [exact Hlen|].
  split; [apply ceil_div_spec; lia|].
  split; [apply ceil_div_spec; lia|].
  split; [reflexivity|].
  intros HU. split; [now rewrite HU|].
  change (users_data (body (json_ (JObj [("success", JBool true);
            ("users", users_block e (db st) (page_of "page_users" q));
            ("messages", messages_block e (db st) (page_of "page_msgs" q))]))))
    with (users_page e (db st) pu).
  rewrite HU in Hlen. split; intros Hp; rewrite Hp in Hlen |- *; lia.
Qed.

(** C10.  A page value whose integer parse is 0 is treated as a missing or
    non-numeric one: the page is 1 and the offset 0, and the whole response
    is the same as for a query in which that value is missing or does not
    parse, whatever the session and the database do.  For an admin session
    served by the database, the block of that value is the block of page 1:
    the first ten rows of the listing, from offset 0, and current_page 1. *)
Theorem zero_page_is_default e st q q' :
  (forall k, k = "page_users" \/ k = "page_msgs" ->
     field k q = field k q'
     \/ (JS.parseInt (field k q) = Some 0
         /\ (field k q' = None \/ JS.parseInt (field k q') = None))) ->
  admin_data e q st = admin_data e q' st
  /\ (forall k, JS.parseInt (field k q) = Some 0 ->
        page_of k q = 1 /\ offset_of (page_of k q) = 0)
  /\ (admin_session st -> served e ->
      (JS.parseInt (field "page_users" q) = Some 0 ->
       in_range (offset_of (page_of "page_msgs" q)) = true ->
         get "users" (body (fst (admin_data e q st)))
         = Some (JObj [("data",
                        JArr (map user_row
                                (limit_offset 10 0 (users_listing e (db st)))));
                       ("total", JNum (Z.of_nat (length (users (db st)))));
                       ("current_page", JNum 1);
                       ("per_page", JNum 10);
                       ("total_pages",
                        JNum (JS.ceil_div
                                (Z.of_nat (length (users (db st)))) 10))]))
      /\ (JS.parseInt (field "page_msgs" q) = Some 0 ->
          in_range (offset_of (page_of "page_users" q)) = true ->
            get "messages" (body (fst (admin_data e q st)))
            = Some (JObj [("data",
                           JArr (map message_row
                                   (limit_offset 10 0
                                      (messages_listing e (db st)))));
                          ("total", JNum (Z.of_nat (length (messages (db st)))));
                          ("current_page", JNum 1);
                          ("per_page", JNum 10);
                          ("total_pages",
                           JNum (JS.ceil_div
                                   (Z.of_nat (length (messages (db st))))
                                   10))]))).
Proof.
  intros H.
  assert (Hp : forall k, k = "page_users" \/ k = "page_msgs" ->
                 page_of k q = page_of k q').
  { intros k Hk. unfold page_of.
    destruct (H k Hk) as [->|[-> [-> | ->]]]; reflexivity. }
  assert (Hz : forall k, JS.parseInt (field k q) = Some 0 ->
                 page_of k q = 1 /\ offset_of (page_of k q) = 0).
  { intros k Hk. unfold page_of. rewrite Hk. now cbn. }
  split; [|split; [exact Hz|]].
  - apply admin_data_pages; apply Hp; auto.
  - intros Ha Hq. split.
    + intros Hk Hm. destruct (Hz _ Hk) as [H1 H0].
      rewrite (admin_data_served e q st Ha Hq); [|now rewrite H0|exact Hm].
      cbn [fst body json_]. unfold admin_payload. rewrite H1.
      reflexivity.
    + intros Hk Hu. destruct (Hz _ Hk) as [H1 H0].
      rewrite (admin_data_served e q st Ha Hq); [|exact Hu|now rewrite H0].
      cbn [fst body json_]. unfold admin_payload. rewrite H1.
      reflexivity.
Qed.

End Properties.

(** ** Further properties of the handlers *)

Section Frames.
Context {P : Platform}.

(** *** What a request does to the tables *)

(** The tables after a request: as before, or with the row of a successful
    registration, or with the row of a successful contact message. *)
Lemma handle_tables e r st :
  let d := db st in
  let d' := db (snd (handle e r st)) in
  (d' = d)
  \/ (exists b u m p,
        r = PostRegister (Some b)
        /\ user_texts (JS.val (field "username" b)) (JS.val (field "email" b))
           = Some (u, m)
        /\ field "password" b = Some (JStr p)
        /\ taken u m d = false
        /\ failing (fst (handle e r st)) = false
        /\ d' = mkDatabase
                  (users d
                   ++ [mkUser (users_auto_increment d) u m
                         (bcrypt_hash p 10 (env_salt e)) (env_now e)])
                  (messages d) (users_auto_increment d + 1)
                  (messages_auto_increment d))
  \/ (exists b name email subject text,
        r = PostContact (Some b)
        /\ logged_in st = true
        /\ existsb (fun u => u_id u =? JS.num (userId (sess st))) (users d)
           = true
        /\ failing (fst (handle e r st)) = false
        /\ d' = mkDatabase (users d)
                  (messages d
                   ++ [mkMessage (messages_auto_increment d)
                         (Some (JS.num (userId (sess st))))
                         name email subject text (env_now e)])
                  (users_auto_increment d) (messages_auto_increment d + 1)).
Proof.
  cbv zeta. destruct r as [[b|]|b| | |b|q]; cbn [handle].
  - destruct (register_cases e b st) as [[m ->]|(u & m & p & H)];
      [now left|].
    destruct H as (_ & Hu & Hp & Ht & ->).
    right; left. exists b, u, m, p. repeat split; assumption.
  - now left.
  - left. destruct (login_cases e b st) as [[m ->]|(x & a & l & p & H)];
      [reflexivity|].
    now destruct H as (_ & _ & _ & _ & _ & _ & ->).
  - left. unfold check_auth. now destruct (JS.truthy_num _).
  - now left.
  - destruct (contact_cases e b st) as
      [[Hl ->]|[(Hl & _ & ->)|[(Hl & m & ->)|(Hl & x & H)]]];
      try (now left).
    destruct H as (n & em & s & t & -> & _ & _ & Hfk & ->).
    right; right. exists x, n, em, s, t. repeat split; assumption.
  - left. now rewrite admin_data_state.
Qed.

Lemma rows_step e r st :
  exists us ms,
    users (db (snd (handle e r st))) = (users (db st) ++ us)%list
    /\ messages (db (snd (handle e r st))) = (messages (db st) ++ ms)%list
    /\ (length us + length ms <= 1)%nat.
Proof.
  destruct (handle_tables e r st)
    as [H|[(b & u & m & p & _ & _ & _ & _ & _ & H)
          |(b & n & em & s & t & _ & _ & _ & _ & H)]];
    cbv zeta in H; rewrite H; cbn [users messages].
  - exists [], []. rewrite !app_nil_r.
    split; [reflexivity|split; [reflexivity|cbn; lia]].
  - eexists _, [].
    split; [reflexivity|split; [now rewrite app_nil_r|cbn; lia]].
  - eexists [], _.
    split; [now rewrite app_nil_r|split; [reflexivity|cbn; lia]].
Qed.

(** X1.  A request leaves both tables alone unless it is a successful
    registration, which appends one user row and nothing else, or a
    successful contact message, which appends one message row and nothing
    else.  No route updates or deletes a row. *)
Theorem rows_come_from_success e r st :
  let st' := snd (handle e r st) in
  (users (db st') = users (db st) /\ messages (db st') = messages (db st))
  \/ (exists b row,
        r = PostRegister b /\ failing (fst (handle e r st)) = false
        /\ users (db st') = (users (db st) ++ [row])%list
        /\ messages (db st') = messages (db st))
  \/ (exists b row,
        r = PostContact b /\ failing (fst (handle e r st)) = false
        /\ users (db st') = users (db st)
        /\ messages (db st') = (messages (db st) ++ [row])%list).
Proof.
  cbv zeta.
  destruct (handle_tables e r st)
    as [H|[(b & u & m & p & Hr & _ & _ & _ & Hf & H)
          |(b & n & em & s & t & Hr & _ & _ & Hf & H)]];
    cbv zeta in H; rewrite H.
  - now left.
  - right; left. exists (Some b). eexists.
    repeat split; eassumption || reflexivity.
  - right; right. exists (Some b). eexists.
    repeat split; eassumption || reflexivity.
Qed.

(** X2.  Along any run of requests the tables only grow at their end, by at
    most one row per request: the rows that were there stay, unchanged and
    in place. *)
Theorem tables_only_grow t st :
  exists us ms,
    users (db (run t st)) = (users (db st) ++ us)%list
    /\ messages (db (run t st)) = (messages (db st) ++ ms)%list
    /\ (length us + length ms <= length t)%nat.
Proof.
  revert st. induction t as [|[e r] t IH]; intros st; cbn [run].
  - exists [], []. now rewrite !app_nil_r.
  - destruct (IH (snd (handle e r st))) as (us & ms & Hu & Hm & Hlen).
    rewrite Hu, Hm.
    destruct (rows_step e r st) as (us0 & ms0 & Hu0 & Hm0 & Hlen0).
    rewrite Hu0, Hm0, <- !app_assoc.
    exists (us0 ++ us)%list, (ms0 ++ ms)%list.
    split; [reflexivity|]. split; [reflexivity|].
    rewrite !length_app. cbn [length]. lia.
Qed.

End Frames.

Section Outcomes.
Context {P : Platform}.

(** *** Refusals and statuses *)

(** X3.  A request that is refused (success:false) changes nothing: the
    tables and the session are as before, also when the refusal comes from a
    query that the database rejected half way through the handler. *)
Theorem refusal_keeps_state e r st :
  failing (fst (handle e r st)) = true -> snd (handle e r st) = st.
Proof.
  destruct r as [[b|]|b| | |b|q]; cbn [handle].
  - destruct (register_cases e b st) as [[m ->]|(u & m & p & H)];
      [reflexivity|].
    destruct H as (_ & _ & _ & _ & ->). discriminate.
  - reflexivity.
  - destruct (login_cases e b st) as [[m ->]|(x & a & l & p & H)];
      [reflexivity|].
    destruct H as (_ & _ & _ & _ & _ & _ & ->). discriminate.
  - intros _. unfold check_auth. now destruct (JS.truthy_num _).
  - discriminate.
  - destruct (contact_cases e b st) as
      [[Hl ->]|[(Hl & _ & ->)|[(Hl & m & ->)|(Hl & x & H)]]];
      try reflexivity.
    destruct H as (n & em & s & t & _ & _ & _ & _ & ->).
    discriminate.
  - intros _. apply admin_data_state.
Qed.

(** The status and the kind of a response. *)
Lemma response_kinds e r st :
  let res := fst (handle e r st) in
  (status res = 200 /\ body res <> JErrorPage)
  \/ (failing res = true
      /\ (status res = 401 \/ status res = 403 \/ status res = 500))
  \/ (bodiless r st = true /\ res = uncaught).
Proof.
  cbv zeta. destruct r as [[b|]|b| | |b|q]; cbn [handle bodiless].
  - left. destruct (register_cases e b st) as [[m ->]|(u & m & p & H)];
      [now split|].
    destruct H as (_ & _ & _ & _ & ->). now split.
  - right; right. now split.
  - left. destruct (login_cases e b st) as [[m ->]|(x & a & l & p & H)];
      [now split|].
    destruct H as (_ & _ & _ & _ & _ & _ & ->). now split.
  - left. unfold check_auth. now destruct (JS.truthy_num _).
  - now left.
  - destruct (contact_cases e b st) as
      [[Hl ->]|[(Hl & -> & ->)|[(Hl & m & ->)|(Hl & x & H)]]].
    + right; left. cbn. auto.
    + right; right. now split.
    + left. now split.
    + destruct H as (n & em & s & t & _ & _ & _ & _ & ->).
      left. now split.
  - destruct (admin_data_cases e q st) as
      [[_ Hr]|[(_ & _ & _ & Hr)|[(_ & _ & _ & _ & Hr)|(_ & _ & Hr)]]];
      rewrite Hr.
    + right; left. split; [reflexivity|]. now left.
    + right; left. split; [reflexivity|]. right. now left.
    + left. now split.
    + right; left. split; [reflexivity|]. right. now right.
Qed.

(** X4.  A response is JSON with status 200, or a refusal (success:false)
    with status 401, 403 or 500, or the error page, status 500, that answers
    a request without a body where the handler takes the body apart
    unguarded.  So a JSON response that is not a refusal has status 200, and
    so has every response that says success:true. *)
Theorem success_is_200 e r st :
  let res := fst (handle e r st) in
  ((status res = 200 /\ body res <> JErrorPage)
   \/ (failing res = true
       /\ (status res = 401 \/ status res = 403 \/ status res = 500))
   \/ (bodiless r st = true /\ res = uncaught))
  /\ (failing res = false -> body res <> JErrorPage -> status res = 200)
  /\ (get "success" (body res) = Some (JBool true) -> status res = 200)
  /\ (bodiless r st = true -> res = uncaught).
Proof.
  cbv zeta. pose proof (response_kinds e r st) as H. cbv zeta in H.
  split; [exact H|]. split; [|split].
  - intros Hf Hb. destruct H as [[H _]|[[H _]|[_ H]]]; [assumption| |].
    + congruence.
    + rewrite H in Hb. now contradiction Hb.
  - intros Hs. destruct H as [[H _]|[[H _]|[_ H]]]; [assumption| |].
    + unfold failing in H. rewrite Hs in H. discriminate.
    + rewrite H in Hs. discriminate.
  - destruct r as [[b|]|b| | |[b|]|q]; cbn [handle bodiless];
      try discriminate.
    + reflexivity.
    + intros Hl. now rewrite (contact_bodiless e st Hl).
Qed.

End Outcomes.

Section Invariants.
Context {P : Platform}.

(** *** What holds of the tables in every reachable state *)

Lemma ForallOrdPairs_snoc {A : Type} (R : A -> A -> Prop) l x :
  ForallOrdPairs R l -> Forall (fun a => R a x) l ->
  ForallOrdPairs R (l ++ [x]).
Proof.
  induction 1 as [|a l Ha Hl IH]; cbn; intros Hx.
  - constructor; constructor.
  - inversion Hx as [|? ? Hax Hlx]; subst. constructor.
    + apply Forall_app. split; [assumption|now constructor].
    + now apply IH.
Qed.

Lemma StronglySorted_snoc (l : list Z) x :
  StronglySorted Z.lt l -> Forall (fun a => a < x) l ->
  StronglySorted Z.lt (l ++ [x]).
Proof.
  induction 1 as [|a l Hl IH Ha]; cbn; intros Hx.
  - constructor; constructor.
  - inversion Hx as [|? ? Hax Hlx]; subst. constructor.
    + now apply IH.
    + apply Forall_app. split; [assumption|now constructor].
Qed.

Lemma not_taken username email d :
  taken username email d = false ->
  Forall (fun a => sql_eq (u_username a) username = false
                   /\ sql_eq (u_email a) email = false) (users d).
Proof.
  unfold taken. intros H. apply Forall_forall. intros a Ha.
  destruct (matches username email a) eqn:Hm.
  - assert (existsb (matches username email) (users d) = true)
      by (apply existsb_exists; eauto).
    congruence.
  - unfold matches in Hm. now apply orb_false_iff in Hm.
Qed.

Lemma reachable_distinct st : reachable st -> distinct_names (users (db st)).
Proof.
  induction 1 as [|e r st _ IH]; [constructor|].
  destruct (handle_tables e r st)
    as [H|[(b & u & m & p & _ & _ & _ & Ht & _ & H)
          |(b & n & em & s & t & _ & _ & _ & _ & H)]];
    cbv zeta in H; rewrite H; cbn [users]; try assumption.
  apply ForallOrdPairs_snoc; [assumption|].
  eapply Forall_impl; [|apply (not_taken _ _ _ Ht)]. now cbn.
Qed.

(** X5.  In every reachable state no two user rows have the same username
    or the same email: of two rows, the later one repeats neither column of
    the earlier one in the collation, so a username, as an email, identifies
    at most one account. *)
Theorem names_identify_accounts {L : PlatformLaws P} st :
  reachable st ->
  distinct_names (users (db st))
  /\ (forall a b,
        In a (users (db st)) -> In b (users (db st)) ->
        u_username a = u_username b \/ u_email a = u_email b -> a = b).
Proof.
  intros Hreach. pose proof (reachable_distinct st Hreach) as Hd.
  split; [exact Hd|].
  unfold distinct_names in Hd.
  induction Hd as [|x l Hx Hl IH]; [intros a b []|].
  assert (Hno : forall c, In c l ->
                 u_username x = u_username c \/ u_email x = u_email c -> False).
  { intros c Hc Hsame. rewrite Forall_forall in Hx.
    destruct (Hx c Hc) as [Hu He].
    destruct Hsame as [Hs|Hs]; rewrite Hs, sql_eq_refl in *; discriminate. }
  intros a b [->|Ha] [->|Hb] Hsame.
  - reflexivity.
  - exfalso. eapply Hno; eassumption.
  - exfalso. apply (Hno a Ha). destruct Hsame; [left|right]; congruence.
  - now apply IH.
Qed.

(** X6.  In every reachable state the password column of every user row
    holds what bcrypt made of some password at cost 10, and some password
    verifies against it. *)
Theorem passwords_are_hashes {L : PlatformLaws P} st :
  reachable st ->
  Forall (fun u => hashed u
                   /\ exists password,
                        bcrypt_compare password (u_password u) = true)
    (users (db st)).
Proof.
  induction 1 as [|e r st _ IH]; [constructor|].
  destruct (handle_tables e r st)
    as [H|[(b & u & m & p & _ & _ & _ & _ & _ & H)
          |(b & n & em & s & t & _ & _ & _ & _ & H)]];
    cbv zeta in H; rewrite H; cbn [users]; try assumption.
  apply Forall_app. split; [assumption|]. constructor; [|constructor].
  cbn [u_password]. split.
  - now exists p, (env_salt e).
  - exists p. apply bcrypt_compare_hash.
Qed.

(** X7.  In every reachable state the ids of each table are positive, below
    the AUTO_INCREMENT counter of the table and strictly increasing in
    insertion order: an id is never given twice. *)
Theorem ids_increase st :
  reachable st ->
  (0 < users_auto_increment (db st)
   /\ Forall (fun u => 0 < u_id u < users_auto_increment (db st))
        (users (db st))
   /\ StronglySorted Z.lt (map u_id (users (db st))))
  /\ (0 < messages_auto_increment (db st)
      /\ Forall (fun m => 0 < m_id m < messages_auto_increment (db st))
           (messages (db st))
      /\ StronglySorted Z.lt (map m_id (messages (db st)))).
Proof.
  induction 1 as [|e r st _ [(Hcu & Hu & Hus) (Hcm & Hm & Hms)]].
  - cbn. repeat split; try lia; constructor.
  - destruct (handle_tables e r st)
      as [H|[(b & u & m & p & _ & _ & _ & _ & _ & H)
            |(b & n & em & s & t & _ & _ & _ & _ & H)]];
      cbv zeta in H; rewrite H;
      cbn [users messages users_auto_increment messages_auto_increment].
    + now repeat split.
    + split; [|now repeat split]. split; [lia|]. split.
      * apply Forall_app. split.
        -- eapply Forall_impl; [|exact Hu]. cbn. intros; lia.
        -- constructor; [cbn; lia|constructor].
      * rewrite map_app. apply StronglySorted_snoc; [assumption|].
        apply Forall_map. eapply Forall_impl; [|exact Hu]. cbn. intros; lia.
    + split; [now repeat split|]. split; [lia|]. split.
      * apply Forall_app. split.
        -- eapply Forall_impl; [|exact Hm]. cbn. intros; lia.
        -- constructor; [cbn; lia|constructor].
      * rewrite map_app. apply StronglySorted_snoc; [assumption|].
        apply Forall_map. eapply Forall_impl; [|exact Hm]. cbn. intros; lia.
Qed.

End Invariants.

Section Messages.
Context {P : Platform}.

(** *** The messages and their authors *)

Lemma reachable_owned st : reachable st -> owned (db st).
Proof.
  unfold owned. induction 1 as [|e r st _ IH]; [constructor|].
  destruct (handle_tables e r st)
    as [H|[(b & u & m & p & _ & _ & _ & _ & _ & H)
          |(b & n & em & s & t & _ & Hl & Hfk & _ & H)]];
    cbv zeta in H; rewrite H; cbn [users messages]; try assumption.
  - eapply Forall_impl; [|exact IH]. cbn. intros x (w & Hin & Hid).
    exists w. split; [|assumption]. apply in_or_app. now left.
  - apply Forall_app. split; [assumption|]. constructor; [|constructor].
    apply existsb_exists in Hfk as (w & Hin & Hid). apply Z.eqb_eq in Hid.
    exists w. split; [assumption|]. cbn. now rewrite Hid.
Qed.

(** With distinct user ids, the join has one row for a message that belongs
    to a user: the message with that user. *)
Lemma left_join_owned (ms : list message) (us : list user) :
  NoDup (map u_id us) ->
  Forall (fun m => exists u, In u us /\ m_user_id m = Some (u_id u)) ms ->
  map fst (left_join ms us) = ms
  /\ Forall (fun r => exists u, In u us /\ snd r = Some u
                                /\ m_user_id (fst r) = Some (u_id u))
       (left_join ms us).
Proof.
  intros Hnd. unfold left_join.
  induction 1 as [|m ms (u & Hin & Hid) _ [IHm IHf]]; [now split|].
  cbn [flat_map].
  assert (Hf : filter (fun v => match m_user_id m with
                                | Some i => i =? u_id v
                                | None => false
                                end) us = [u]).
  { rewrite Hid, <- (filter_unique us u Hnd Hin). apply filter_ext.
    intros v. apply Z.eqb_sym. }
  rewrite Hf. cbv beta iota. split.
  - rewrite map_app, IHm. reflexivity.
  - apply Forall_app. split; [|assumption].
    constructor; [|constructor]. exists u. now cbn.
Qed.

Lemma insert_desc_Forall {A : Type} (Q : A -> Prop) (key : A -> Z) x l :
  Q x -> Forall Q l -> Forall Q (insert_desc key x l).
Proof.
  intros Hx. induction 1 as [|y l Hy Hl IH]; cbn; [now constructor|].
  destruct (key y <=? key x); repeat constructor; assumption.
Qed.

Lemma order_by_desc_Forall {A : Type} (Q : A -> Prop) (key : A -> Z) l :
  Forall Q l -> Forall Q (order_by_desc key l).
Proof.
  induction 1 as [|x l Hx Hl IH]; cbn; [constructor|].
  now apply insert_desc_Forall.
Qed.

Lemma listing_Forall {A : Type} (Q : A -> Prop) rank (ident key : A -> Z) l :
  Forall Q l -> Forall Q (listing rank ident key l).
Proof.
  intros H. unfold listing.
  now apply order_by_desc_Forall, order_by_desc_Forall.
Qed.

Lemma firstn_Forall {A : Type} (Q : A -> Prop) n (l : list A) :
  Forall Q l -> Forall Q (firstn n l).
Proof.
  intros H. revert n. induction H; intros [|n]; cbn; constructor; auto.
Qed.

Lemma skipn_Forall {A : Type} (Q : A -> Prop) n (l : list A) :
  Forall Q l -> Forall Q (skipn n l).
Proof.
  intros H. revert n. induction H; intros [|n]; cbn; auto.
Qed.

Lemma limit_offset_Forall {A : Type} (Q : A -> Prop) n o (l : list A) :
  Forall Q l -> Forall Q (limit_offset n o l).
Proof.
  intros H. unfold limit_offset. now apply firstn_Forall, skipn_Forall.
Qed.

(** X8.  In every reachable state every message belongs to a user of the
    table, and on every page of the admin listing, in whatever order the
    server lists it, each message row carries that user's id as user_id and
    that user's username as user_name, never null. *)
Theorem messages_keep_their_author e st page :
  reachable st ->
  owned (db st)
  /\ Forall (fun row => exists u,
               In u (users (db st))
               /\ get "user_id" row = Some (JNum (u_id u))
               /\ get "user_name" row = Some (JStr (u_username u)))
       (messages_page e (db st) page).
Proof.
  intros Hreach. pose proof (reachable_owned st Hreach) as Ho.
  split; [exact Ho|].
  pose proof (ids_unique _ (reachable_consistent st Hreach)) as Hnd.
  destruct (left_join_owned _ _ Hnd Ho) as [_ Hj].
  unfold messages_page, messages_rows, messages_listing. apply Forall_map.
  apply limit_offset_Forall, listing_Forall.
  eapply Forall_impl; [|exact Hj].
  intros [m o] (u & Hin & Ho' & Hid). cbn [fst snd] in *. subst o.
  exists u. split; [assumption|]. cbn. now rewrite Hid.
Qed.

(** X9.  For an admin session in a reachable state, a database serving the
    queries and exact page numbers, the messages block reports the number of
    message rows as total and holds the rows from offset (page-1)*10 on, ten
    at most: the join with the users neither drops nor repeats a message. *)
Theorem messages_block_counts e q st :
  reachable st -> admin_session st -> served e ->
  exact_page (page_of "page_users" q) -> exact_page (page_of "page_msgs" q) ->
  let r := fst (admin_data e q st) in
  let M := Z.of_nat (length (messages (db st))) in
  (exists b, get "messages" (body r) = Some b /\ get "total" b = Some (JNum M))
  /\ Z.of_nat (length (block_data "messages" (body r)))
     = Z.max 0 (Z.min 10 (M - (page_of "page_msgs" q - 1) * 10)).
Proof.
  intros Hreach Ha Hq Hu Hm r M. subst r.
  rewrite (admin_data_served e q st Ha Hq (proj2 (offset_exact _ Hu))
             (proj2 (offset_exact _ Hm))).
  cbn [fst body json_]. rewrite (admin_payload_exact e q (db st) Hu Hm).
  split; [eexists; split; reflexivity|].
  change (block_data "messages" _)
    with (messages_page e (db st) (page_of "page_msgs" q)).
  unfold messages_page, messages_rows, messages_listing.
  destruct Hm as [Hm _].
  rewrite length_map, limit_offset_length, listing_length by lia.
  pose proof (ids_unique _ (reachable_consistent st Hreach)) as Hnd.
  destruct (left_join_owned _ _ Hnd (reachable_owned st Hreach)) as [Hj _].
  assert (Hlen : length (left_join (messages (db st)) (users (db st)))
                 = length (messages (db st)))
    by (rewrite <- (length_map fst); now rewrite Hj).
  now rewrite Hlen.
Qed.

End Messages.

Section Accounts.
Context {P : Platform}.

(** *** Logging in *)

(** X10.  Login never touches the tables, and a login that does not succeed
    leaves the session that was there.  A login of two non-empty strings
    succeeds exactly when the database serves the lookup, the lookup by
    username or email finds a row and the password verifies against the hash
    of the first such row; the session then carries the id and the stored
    username of that row, and the response names the stored username, also
    when the identifier was the email.  Whatever the two values are, a login
    that succeeds passed the checks of the handler with a password that is a
    string, and signed in a row of the table against whose hash that
    password verifies.  Without a body the login is refused as one with
    empty fields. *)
Theorem login_spec e (b : fields) st :
  let r := fst (login e (Some b) st) in
  let st' := snd (login e (Some b) st) in
  let granted a :=
    account_for (text_of (field "username" b)) (db st) = Some a
    /\ bcrypt_compare (text_of (field "password" b)) (u_password a) = true in
  db st' = db st
  /\ (complete_login b = true ->
      (failing r = false <->
       hd false (env_outages e) = false /\ exists a, granted a))
  /\ (forall a, complete_login b = true -> failing r = false -> granted a ->
        sess st' = mkSession (Some (u_id a)) (Some (JStr (u_username a)))
        /\ get "username" (body r) = Some (JStr (u_username a)))
  /\ (failing r = true -> sess st' = sess st)
  /\ (failing r = false ->
      valid_login b = true
      /\ hd false (env_outages e) = false
      /\ exists a p,
           In a (users (db st))
           /\ field "password" b = Some (JStr p)
           /\ bcrypt_compare p (u_password a) = true
           /\ sess st' = mkSession (Some (u_id a)) (Some (JStr (u_username a)))
           /\ get "username" (body r) = Some (JStr (u_username a)))
  /\ login e None st = (json_ (refusal "請填寫所有欄位"), st).
Proof.
  cbv zeta.
  split; [|split; [|split; [|split; [|split; [|reflexivity]]]]].
  - destruct (login_cases e (Some b) st) as [[m ->]|(x & a & l & p & H)];
      [reflexivity|].
    now destruct H as (_ & _ & _ & _ & _ & _ & ->).
  - intros Hc. rewrite (login_complete e b st Hc).
    destruct (hd false (env_outages e)).
    { cbn. split; [discriminate|]. intros (H & _). discriminate. }
    destruct (account_for _ _) as [a|].
    + destruct (bcrypt_compare _ (u_password a)) eqn:Hv; cbn.
      * split; [|reflexivity]. intros _. split; [reflexivity|].
        exists a. now split.
      * split; [discriminate|]. intros (_ & a' & [= <-] & Hv'). congruence.
    + cbn. split; [discriminate|]. intros (_ & a' & Ha' & _). discriminate.
  - intros a Hc. rewrite (login_complete e b st Hc).
    destruct (hd false (env_outages e)); [discriminate|].
    destruct (account_for _ _) as [a'|]; [|discriminate].
    destruct (bcrypt_compare _ (u_password a')); [|discriminate].
    intros _ [[= <-] _]. now split.
  - destruct (login_cases e (Some b) st) as [[m ->]|(x & a & l & p & H)];
      [reflexivity|].
    destruct H as (_ & _ & _ & _ & _ & _ & ->). discriminate.
  - destruct (login_cases e (Some b) st) as [[m ->]|(x & a & l & p & H)];
      [discriminate|].
    destruct H as ([= <-] & Hv & Hf & Hp & Hc & Hq & ->). intros _.
    split; [assumption|]. split; [assumption|].
    exists a, p. split; [eapply found_In; [exact Hf|now left]|].
    now repeat split.
Qed.

Lemma account_for_app ident (d : database) us a :
  account_for ident d = Some a ->
  hd_error (filter (matches ident ident) (users d ++ us)) = Some a.
Proof.
  unfold account_for. rewrite filter_app.
  destruct (filter _ (users d)); cbn; [discriminate|trivial].
Qed.

Lemma account_for_step ident e r st a :
  account_for ident (db st) = Some a ->
  account_for ident (db (snd (handle e r st))) = Some a.
Proof.
  intros Ha. destruct (rows_step e r st) as (us & _ & Hu & _).
  unfold account_for at 1. rewrite Hu. now apply account_for_app.
Qed.

Lemma account_for_run ident t st a :
  account_for ident (db st) = Some a ->
  account_for ident (db (run t st)) = Some a.
Proof.
  revert st. induction t as [|[e r] t IH]; intros st Ha; cbn [run];
    [assumption|].
  now apply IH, account_for_step.
Qed.

(** X11.  The account that an identifier logs into never changes: once the
    lookup by username or email puts a row first for an identifier, it puts
    the same row first after any further requests, whatever is registered
    in between. *)
Theorem login_target_is_stable ident t st a :
  account_for ident (db st) = Some a ->
  account_for ident (db (run t st)) = Some a
  /\ (forall e b,
        complete_login b = true -> text_of (field "username" b) = ident ->
        hd false (env_outages e) = false ->
        (failing (fst (login e (Some b) (run t st))) = false
         <-> bcrypt_compare (text_of (field "password" b)) (u_password a)
             = true)).
Proof.
  intros Ha. pose proof (account_for_run ident t st a Ha) as Hrun.
  split; [exact Hrun|].
  intros e b Hc Hi Hq. rewrite (login_complete e b _ Hc), Hq, Hi, Hrun.
  destruct (bcrypt_compare _ _); cbn; split; congruence.
Qed.



(** X14.  Whoever registers the username admin while it is free holds the
    admin gate from then on: the new session is an admin session and a
    served request for the admin data with exact pages is answered with the
    two blocks.  The username is the only thing the gate looks at. *)
Theorem first_admin_takes_the_gate e (b : fields) st :
  reachable st ->
  complete_registration b = true ->
  field "username" b = Some (JStr "admin") ->
  taken "admin" (text_of (field "email" b)) (db st) = false ->
  served e ->
  let st' := snd (register e (Some b) st) in
  admin_session st'
  /\ (forall e' q,
        served e' ->
        exact_page (page_of "page_users" q) ->
        exact_page (page_of "page_msgs" q) ->
        fst (admin_data e' q st')
        = json_ (JObj [("success", JBool true);
                       ("users",
                        users_block e' (db st') (page_of "page_users" q));
                       ("messages",
                        messages_block e' (db st') (page_of "page_msgs" q))])).
Proof.
  intros Hreach Hc Hname Ht Hq st'.
  assert (Ha : admin_session st').
  { subst st'. rewrite (register_complete e b st Hc), Hname. cbn [text_of].
    unfold served in Hq.
    rewrite Ht, (quiet_hd _ Hq), (quiet_hd _ (quiet_tl _ Hq)). cbn [snd].
    apply reachable_consistent in Hreach as [Hpos Hb _ _].
    split.
    - unfold logged_in. cbn. apply negb_true_iff, Z.eqb_neq. lia.
    - unfold stored_usernames, usernames_of. cbn [sess db userId users JS.num].
      rewrite filter_app. rewrite filter_none.
      + cbn. now rewrite Z.eqb_refl.
      + intros Hin. apply in_map_iff in Hin as (u & Hid & Hin).
        rewrite Forall_forall in Hb. specialize (Hb u Hin). lia. }
  split; [exact Ha|].
  intros e' q Hq' Hu Hm.
  rewrite (admin_data_served e' q st' Ha Hq' (proj2 (offset_exact _ Hu))
             (proj2 (offset_exact _ Hm))).
  cbn [fst]. now rewrite (admin_payload_exact e' q (db st') Hu Hm).
Qed.

End Accounts.

Section Listings.
Context {P : Platform}.

(** *** The listings of the admin route *)

Lemma insert_desc_perm {A : Type} (key : A -> Z) x l :
  Permutation (x :: l) (insert_desc key x l).
Proof.
  induction l as [|y l IH]; cbn; [reflexivity|].
  destruct (key y <=? key x); [reflexivity|].
  rewrite perm_swap. now constructor.
Qed.

Lemma insert_desc_sorted {A : Type} (key : A -> Z) x l :
  descending key l -> descending key (insert_desc key x l).
Proof.
  unfold descending. induction 1 as [|y l Hl IH Hy]; cbn.
  - repeat constructor.
  - destruct (key y <=? key x) eqn:E.
    + apply Z.leb_le in E. constructor; [now constructor|].
      constructor; [assumption|].
      eapply Forall_impl; [|exact Hy]. cbn. intros; lia.
    + apply Z.leb_gt in E. constructor; [assumption|].
      rewrite <- (insert_desc_perm key x l).
      constructor; [lia|assumption].
Qed.

Lemma order_by_desc_sorted {A : Type} (key : A -> Z) (l : list A) :
  Permutation l (order_by_desc key l) /\ descending key (order_by_desc key l).
Proof.
  induction l as [|x l [IHp IHs]]; cbn.
  - split; [reflexivity|constructor].
  - split.
    + rewrite <- insert_desc_perm. now constructor.
    + now apply insert_desc_sorted.
Qed.

Lemma listing_sorted {A : Type} rank (ident key : A -> Z) (l : list A) :
  Permutation l (listing rank ident key l)
  /\ descending key (listing rank ident key l).
Proof.
  unfold listing. split; [|apply order_by_desc_sorted].
  etransitivity; apply order_by_desc_sorted.
Qed.

Lemma skipn_sorted {A : Type} (R : A -> A -> Prop) n (l : list A) :
  StronglySorted R l -> StronglySorted R (skipn n l).
Proof.
  intros H. revert n. induction H; intros [|n]; cbn; auto using StronglySorted.
Qed.

Lemma firstn_sorted {A : Type} (R : A -> A -> Prop) n (l : list A) :
  StronglySorted R l -> StronglySorted R (firstn n l).
Proof.
  intros H. revert n. induction H as [|x l Hl IH Hx]; intros [|n]; cbn;
    try constructor; auto.
  now apply firstn_Forall.
Qed.

Lemma map_sorted {A B : Type} (f : A -> B) (key : A -> Z) (key' : B -> Z) l :
  (forall x, key' (f x) = key x) ->
  descending key l -> descending key' (map f l).
Proof.
  intros Hk. unfold descending.
  induction 1 as [|x l Hl IH Hx]; cbn; constructor; [assumption|].
  apply Forall_map. eapply Forall_impl; [|exact Hx].
  cbn. intros y Hy. now rewrite !Hk.
Qed.

Lemma users_rows_sorted e d offset :
  descending created_at (users_rows e d offset)
  /\ Forall (fun row => exists u, In u (users d) /\ row = user_row u)
       (users_rows e d offset).
Proof.
  unfold users_rows, users_listing, limit_offset. split.
  - apply (map_sorted user_row u_created_at); [reflexivity|].
    apply firstn_sorted, skipn_sorted, listing_sorted.
  - apply Forall_map, firstn_Forall, skipn_Forall, listing_Forall.
    apply Forall_forall. intros u Hu. now exists u.
Qed.

Lemma messages_rows_sorted e d offset :
  descending created_at (messages_rows e d offset)
  /\ Forall (fun row => exists m, In m (messages d)
                                  /\ get "id" row = Some (JNum (m_id m))
                                  /\ created_at row = m_created_at m)
       (messages_rows e d offset).
Proof.
  unfold messages_rows, messages_listing, limit_offset. split.
  - apply (map_sorted message_row (fun r => m_created_at (fst r)));
      [now intros [m u]|].
    apply firstn_sorted, skipn_sorted, listing_sorted.
  - apply Forall_map, firstn_Forall, skipn_Forall, listing_Forall.
    apply Forall_forall. intros [m u] Hin. exists m. split; [|now split].
    unfold left_join in Hin. apply in_flat_map in Hin as (m' & Hm' & Hin).
    destruct (filter _ _) as [|w ws].
    + destruct Hin as [[= <- _]|[]]. assumption.
    + apply in_map_iff in Hin as (w' & [= <- _] & _). assumption.
Qed.

(** X15.  Whatever the request, the session and the server's choice among
    rows of equal created_at: the rows of the users block of an admin
    response are rows of the users table, as [user_row] shows them, and come
    with created_at never increasing; the rows of the messages block are rows
    of the messages table and come with created_at never increasing; and the
    listing that the pages are cut from holds every row of the table exactly
    once. *)
Theorem listing_is_sorted e q st :
  let r := fst (admin_data e q st) in
  descending created_at (block_data "users" (body r))
  /\ Forall (fun row => exists u, In u (users (db st)) /\ row = user_row u)
       (block_data "users" (body r))
  /\ descending created_at (block_data "messages" (body r))
  /\ Forall (fun row => exists m, In m (messages (db st))
                                  /\ get "id" row = Some (JNum (m_id m))
                                  /\ created_at row = m_created_at m)
       (block_data "messages" (body r))
  /\ Permutation (users (db st)) (users_listing e (db st))
  /\ Permutation (left_join (messages (db st)) (users (db st)))
       (messages_listing e (db st)).
Proof.
  cbv zeta.
  assert (Hnil : forall n m,
            descending created_at (block_data "users" (refusal m))
            /\ Forall (fun row => exists u, In u (users (db st))
                                            /\ row = user_row u)
                 (block_data "users" (body (status_json n (refusal m))))
            /\ descending created_at (block_data "messages" (refusal m))
            /\ Forall (fun row => exists x, In x (messages (db st))
                                  /\ get "id" row = Some (JNum (m_id x))
                                  /\ created_at row = m_created_at x)
                 (block_data "messages" (body (status_json n (refusal m))))).
  { intros n m. repeat split; constructor. }
  rewrite <- !and_assoc. split; [split|]; [|apply listing_sorted..].
  rewrite !and_assoc.
  destruct (admin_data_cases e q st) as
    [[_ Hr]|[(_ & _ & _ & Hr)|[(_ & _ & _ & _ & Hr)|(_ & _ & Hr)]]];
    rewrite Hr; try apply Hnil.
  cbn [body json_]. unfold admin_payload.
  change (block_data "users" _)
    with (users_rows e (db st) (offset_of (page_of "page_users" q))).
  change (block_data "messages" _)
    with (messages_rows e (db st) (offset_of (page_of "page_msgs" q))).
  split; [apply users_rows_sorted|]. split; [apply users_rows_sorted|].
  split; apply messages_rows_sorted.
Qed.

End Listings.

Section Bootstrap.

(** *** initDb *)

(** A relation that every awaited statement respects is respected by the
    whole sequence, wherever it stops. *)
Lemma awaited_rel (R : server -> server -> Prop) f rest :
  (forall s, R s s) ->
  (forall a b c, R a b -> R b c -> R a c) ->
  (forall s s', f s = Some s' -> R s s') ->
  (forall o s, R s (fst (rest o s))) ->
  forall o s, R s (fst (awaited f rest o s)).
Proof.
  intros Hrefl Htrans Hf Hrest o s. unfold awaited.
  destruct (hd false o); [apply Hrefl|].
  destruct (f s) as [s'|] eqn:E; [|apply Hrefl].
  eapply Htrans; [apply (Hf _ _ E)|apply Hrest].
Qed.

Lemma extends_refl s : extends s s.
Proof. destruct s as [c|]; cbn; eauto. Qed.

Lemma extends_trans a b c : extends a b -> extends b c -> extends a c.
Proof.
  destruct a as [ca|]; cbn; [|trivial].
  intros (cb & -> & Hu & Hm). cbn. intros (cc & -> & Hu' & Hm').
  exists cc. repeat split; auto.
Qed.

(** X17.  initDb never drops or rewrites anything: whatever queries the
    server rejects, a database that existed still exists afterwards, and a
    table that existed still has the same rows and the same counter. *)
Theorem initDb_keeps_rows o s : extends s (fst (initDb o s)).
Proof.
  unfold initDb.
  repeat (apply awaited_rel;
          [apply extends_refl | apply extends_trans | | intros ? ?]);
    try apply extends_refl.
  - intros a b [= <-]. apply extends_refl.
  - intros [c|] b [= <-]; cbn; eauto.
  - intros a b [= <-]. apply extends_refl.
  - intros [c|] b [= <-]; cbn; eauto.
  - intros [c|] b E; cbn in *; [|discriminate].
    destruct (users_table c) eqn:Hu; injection E as <-; cbn.
    + exists c. split; [reflexivity|]. split; intros t Ht; congruence.
    + eexists. split; [reflexivity|]. split; intros t Ht; cbn; congruence.
  - intros [c|] b E; cbn in *; [|discriminate].
    destruct (messages_table c) eqn:Hm.
    + injection E as <-. exists c.
      split; [reflexivity|]. split; intros t Ht; congruence.
    + destruct (users_table c) eqn:Hu; [|discriminate].
      injection E as <-.
      eexists. split; [reflexivity|]. split; intros t Ht; cbn; congruence.
Qed.

(** X18.  Once the database and its two tables exist, initDb changes
    nothing, whatever the server rejects: running it at every start of the
    process is safe. *)
Theorem initDb_idempotent o s :
  bootstrapped s -> fst (initDb o s) = s.
Proof.
  intros (c & -> & Hu & Hm). unfold initDb, awaited. cbn.
  destruct (users_table c) eqn:Eu; [|contradiction].
  destruct (messages_table c) eqn:Em; [|contradiction].
  repeat match goal with
         | |- context [if ?b then _ else _] => destruct b; try reflexivity
         end.
  all: cbn; rewrite ?Eu, ?Em; reflexivity.
Qed.

Lemma quiet_firstn_S n o :
  quiet (firstn (S n) o) = negb (hd false o) && quiet (firstn n (tl o)).
Proof.
  destruct o as [|b o]; cbn; [|reflexivity]. now rewrite firstn_nil.
Qed.

(** X19.  initDb logs success exactly when the server rejects none of its
    six awaited calls; the database and both tables then exist, and on a
    server that had no database they are the empty tables that the handlers
    start from.  A failure is logged and does not stop the process. *)
Theorem initDb_completes o s :
  (snd (initDb o s) = true <-> quiet (firstn 6 o) = true)
  /\ (snd (initDb o s) = true -> bootstrapped (fst (initDb o s)))
  /\ (snd (initDb o s) = true -> s = None ->
      database_of (fst (initDb o s)) = Some empty_db).
Proof.
  rewrite !quiet_firstn_S. cbn [firstn quiet forallb andb].
  unfold initDb, awaited.
  destruct (hd false o); cbn [negb andb fst snd];
    [repeat split; discriminate|].
  destruct (hd false (tl o)); cbn [negb andb fst snd];
    [repeat split; discriminate|].
  destruct (hd false (tl (tl o))); cbn [negb andb fst snd];
    [destruct s; cbn; repeat split; discriminate|].
  destruct (hd false (tl (tl (tl o)))); cbn [negb andb fst snd];
    [destruct s; cbn; repeat split; discriminate|].
  destruct (hd false (tl (tl (tl (tl o))))); cbn [negb andb fst snd];
    [destruct s as [[[?|] ?]|]; cbn; repeat split; discriminate|].
  destruct (hd false (tl (tl (tl (tl (tl o)))))); cbn [negb andb fst snd];
    [destruct s as [[[?|] ?]|]; cbn; repeat split; discriminate|].
  destruct s as [[[ut|] [mt|]]|]; cbn; repeat split; try discriminate;
    try (eexists; split; [reflexivity|]; cbn; split; discriminate).
  all: try destruct ut; try destruct mt; try reflexivity.
Qed.

End Bootstrap.

Section Sessions.
Context {P : Platform}.

(** *** What changes the session *)

(** X21.  The session after a request is the session before it, unless the
    request is a logout, which empties it, or a registration or a login that
    succeeded.  Contact, check_auth and the admin route never change it, and
    no refused request does. *)
Theorem session_changes_only_by_auth e r st :
  let st' := snd (handle e r st) in
  sess st' = sess st
  \/ (r = GetLogout /\ sess st' = no_session)
  \/ (exists b,
        (r = PostRegister b \/ r = PostLogin b)
        /\ failing (fst (handle e r st)) = false).
Proof.
  cbv zeta. destruct r as [[b|]|b| | |b|q]; cbn [handle].
  - destruct (register_cases e b st) as [[m ->]|(u & m & p & H)];
      [now left|].
    destruct H as (_ & _ & _ & _ & ->).
    right; right. exists (Some b). auto.
  - now left.
  - destruct (login_cases e b st) as [[m ->]|(x & a & l & p & H)];
      [now left|].
    destruct H as (_ & _ & _ & _ & _ & _ & ->).
    right; right. exists b. auto.
  - left. unfold check_auth. now destruct (JS.truthy_num _).
  - right; left. now split.
  - left.
    destruct (contact_cases e b st) as
      [[Hl ->]|[(Hl & _ & ->)|[(Hl & m & ->)|(Hl & x & H)]]];
      try reflexivity.
    now destruct H as (n & em & s & t & _ & _ & _ & _ & ->).
  - left. now rewrite admin_data_state.
Qed.

End Sessions.

(** ** The theorems at work

    The handlers run on the platform [plain], which keeps the two laws. *)

#[local] Existing Instance plain.

Lemma plain_laws : PlatformLaws plain.
Proof.
  split; cbn.
  - apply String.eqb_refl.
  - intros password _ _. apply String.eqb_refl.
Qed.

Lemma bob_signed_in_reachable : reachable bob_signed_in.
Proof.
  unfold bob_signed_in, admin_signed_in.
  apply reachable_step, reachable_step, reachable_init.
Qed.

Lemma crowded_admin : admin_session crowded.
Proof. split; vm_compute; reflexivity. Qed.

(** [parseInt] at work: leading white space, also beyond ASCII (U+00A0 is the
    bytes 194 160, U+3000 the bytes 227 128 128), a sign, a radix prefix, the
    longest prefix of digits, an array read as its elements joined by commas,
    and the nearest double of a long number. *)
Lemma parseInt_examples :
  JS.parseInt (Some (QStr "  42px")) = Some 42
  /\ JS.parseInt
       (Some (QStr (String (ascii_of_nat 194) (String (ascii_of_nat 160) "5"))))
     = Some 5
  /\ JS.parseInt
       (Some (QStr (String (ascii_of_nat 227)
                      (String (ascii_of_nat 128)
                         (String (ascii_of_nat 128) "7")))))
     = Some 7
  /\ JS.parseInt (Some (QStr "-3")) = Some (-3)
  /\ JS.parseInt (Some (QStr "0x1F")) = Some 31
  /\ JS.parseInt (Some (QStr "page2")) = None
  /\ JS.parseInt (Some (QStr "")) = None
  /\ JS.parseInt None = None
  /\ JS.parseInt (Some (QArr [QStr "7"; QStr "8"])) = Some 7
  /\ JS.parseInt (Some (QObj [("a", QStr "1")])) = None
  /\ JS.parseInt (Some (QStr "9007199254740993")) = Some 9007199254740992.
Proof. vm_compute. repeat split. Qed.

(** Two rows of the same second come in the order that the server gives
    them. *)
Lemma ties_are_the_servers :
  map u_created_at (users (db same_second)) = [1000; 1000]
  /\ map u_username (users_listing (calm 0 0) (db same_second))
     = ["bob"; "admin"]
  /\ map u_username (users_listing latest_first (db same_second))
     = ["admin"; "bob"].
Proof. vm_compute. repeat split. Qed.

(** Bob, signed in, asks for the admin data and is answered 403. *)
Lemma admin_data_gate_witness :
  reachable bob_signed_in
  /\ username (sess bob_signed_in) = Some (JStr "bob")
  /\ status (fst (admin_data (calm 0 0) [] bob_signed_in)) = 403
  /\ get "users" (body (fst (admin_data (calm 0 0) [] bob_signed_in))) = None.
Proof.
  pose proof (admin_data_gate (calm 0 0) [] bob_signed_in
                bob_signed_in_reachable) as H.
  cbv zeta in H. destruct H as (_ & H & _).
  assert (Hn : forall v, username (sess bob_signed_in) = Some v ->
                 sql_text "username" [] v <> Some "admin")
    by (intros v [= <-]; cbn; discriminate).
  destruct (H eq_refl Hn) as (_ & Hrows & _ & H403 & _).
  exact (conj bob_signed_in_reachable
           (conj eq_refl (conj (H403 eq_refl) Hrows))).
Defined.

(** C1 as stated fails: the first visitor registers with a JSON body whose
    username is the array of the one string admin.  The driver writes the
    array as its element, so the row is named admin; the session keeps the
    array.  The session's username is not the string "admin", and the
    request for the admin data is answered 200 with both blocks. *)
Lemma brackets_pass_the_gate :
  reachable bracketed
  /\ logged_in bracketed = true
  /\ username (sess bracketed) = Some (JArr [JStr "admin"])
  /\ username (sess bracketed) <> Some (JStr "admin")
  /\ map u_username (users (db bracketed)) = ["admin"]
  /\ status (fst (admin_data (calm 0 0) [] bracketed)) = 200
  /\ get "success" (body (fst (admin_data (calm 0 0) [] bracketed)))
     = Some (JBool true)
  /\ block_data "users" (body (fst (admin_data (calm 0 0) [] bracketed)))
     = [JObj [("id", JNum 1); ("username", JStr "admin");
              ("email", JStr "mallory@example.com");
              ("created_at", JDate 1000)]].
Proof.
  split; [apply reachable_step, reachable_init|].
  vm_compute. repeat split. discriminate.
Qed.



(** C3 as stated fails: admin asks for the data while the database is
    down.  The request fails, it is neither unauthenticated nor from a
    non-admin session, and its status is 500. *)
Lemma admin_outage_is_500 :
  logged_in admin_signed_in = true
  /\ not_admin (stored_usernames admin_signed_in) = false
  /\ failing (fst (handle down (GetAdminData []) admin_signed_in)) = true
  /\ status (fst (handle down (GetAdminData []) admin_signed_in)) = 500.
Proof. vm_compute. repeat split. Qed.

(** An empty registration form is refused with status 200. *)
Lemma failure_statuses_witness :
  failing (fst (handle (calm 0 0) (PostRegister (Some [])) init)) = true
  /\ status (fst (handle (calm 0 0) (PostRegister (Some [])) init)) = 200.
Proof.
  split; [reflexivity|].
  exact (proj2 (proj2 (proj2 (failure_statuses (calm 0 0)
                                (PostRegister (Some [])) init)) eq_refl)).
Defined.



(** C5 as stated fails: admin asks for page -1 of the users.  The value
    parses to -1, the database serves every query it accepts, and the
    response is the system error with status 500 and no block. *)
Lemma negative_page_is_rejected :
  admin_session crowded
  /\ served (calm 0 0)
  /\ JS.parseInt (field "page_users" [("page_users", QStr "-1")]) = Some (-1)
  /\ fst (admin_data (calm 0 0) [("page_users", QStr "-1")] crowded)
     = status_json 500 (refusal "系統錯誤")
  /\ get "users"
       (body (fst (admin_data (calm 0 0) [("page_users", QStr "-1")] crowded)))
     = None.
Proof. split; [exact crowded_admin|]. vm_compute. repeat split. Qed.

(** Page 3 of 25 users has 5 rows, and there are 3 pages. *)
Lemma admin_pagination_witness :
  length (users (db crowded)) = 25%nat
  /\ page_of "page_users" [("page_users", QStr "3")] = 3
  /\ length (users_data
               (body (fst (admin_data (calm 0 0) [("page_users", QStr "3")]
                             crowded))))
     = 5%nat
  /\ JS.ceil_div (Z.of_nat (length (users (db crowded)))) 10 = 3.
Proof.
  assert (Hu : exact_page (page_of "page_users" [("page_users", QStr "3")]))
    by (vm_compute; split; congruence).
  assert (Hm : exact_page (page_of "page_msgs" [("page_users", QStr "3")]))
    by (vm_compute; split; congruence).
  pose proof (admin_pagination (calm 0 0) [("page_users", QStr "3")] crowded
                crowded_admin eq_refl Hu Hm) as H.
  cbv zeta in H. destruct H as (_ & _ & _ & _ & _ & _ & _ & _ & H).
  destruct (H eq_refl) as (Hpages & _ & Hrows).
  exact (conj eq_refl (conj eq_refl (conj (Hrows eq_refl) Hpages))).
Defined.





(** Page 0 of the users is page 1: the response is that of a request without
    the value, and its users block is the first ten rows with current_page
    1. *)
Lemma zero_page_is_default_witness :
  JS.parseInt (Some (QStr "0")) = Some 0
  /\ admin_data (calm 0 0) [("page_users", QStr "0")] crowded
     = admin_data (calm 0 0) [] crowded
  /\ block_data "users"
       (body (fst (admin_data (calm 0 0) [("page_users", QStr "0")] crowded)))
     = map user_row (firstn 10 (users_listing (calm 0 0) (db crowded)))
  /\ (exists b,
        get "users"
          (body (fst (admin_data (calm 0 0) [("page_users", QStr "0")] crowded)))
        = Some b
        /\ get "current_page" b = Some (JNum 1)).
Proof.
  assert (H : forall k, k = "page_users" \/ k = "page_msgs" ->
                field k [("page_users", QStr "0")] = field k (@nil (string * query_value))
                \/ (JS.parseInt (field k [("page_users", QStr "0")]) = Some 0
                    /\ (field k (@nil (string * query_value)) = None
                        \/ JS.parseInt (field k (@nil (string * query_value)))
                           = None))).
  { intros k [-> | ->].
    - right. split; [reflexivity|left; reflexivity].
    - left. reflexivity. }
  destruct (zero_page_is_default (calm 0 0) crowded
              [("page_users", QStr "0")] [] H) as (Hsame & _ & Hblock).
  destruct (Hblock crowded_admin eq_refl) as [Husers _].
  specialize (Husers eq_refl eq_refl).
  split; [reflexivity|]. split; [exact Hsame|]. split.
  - unfold block_data. rewrite Husers. reflexivity.
  - eexists. split; [exact Husers|reflexivity].
Defined.

(** *** The further properties at work *)

Lemma crowd_reachable n st : reachable st -> reachable (crowd n st).
Proof.
  intros H. induction n as [|n IH]; [exact H|].
  cbn [crowd]. now apply reachable_step.
Qed.

Lemma admin_wrote_reachable : reachable admin_wrote.
Proof.
  unfold admin_wrote, crowded.
  apply reachable_step, reachable_step, crowd_reachable.
  unfold admin_signed_in. apply reachable_step, reachable_init.
Qed.

Lemma admin_wrote_admin : admin_session admin_wrote.
Proof. split; vm_compute; reflexivity. Qed.

(** A login without a body is refused and changes nothing. *)
Lemma refusal_keeps_state_witness :
  failing (fst (handle (calm 0 0) (PostLogin None) bob_signed_in)) = true
  /\ snd (handle (calm 0 0) (PostLogin None) bob_signed_in) = bob_signed_in.
Proof.
  split; [reflexivity|].
  apply (refusal_keeps_state (calm 0 0) (PostLogin None) bob_signed_in).
  reflexivity.
Defined.

(** Admin and bob are told apart by username and by email. *)
Lemma names_identify_accounts_witness :
  reachable bob_signed_in
  /\ forall a b,
       In a (users (db bob_signed_in)) -> In b (users (db bob_signed_in)) ->
       u_username a = u_username b \/ u_email a = u_email b -> a = b.
Proof.
  split; [exact bob_signed_in_reachable|].
  exact (proj2 (names_identify_accounts (L := plain_laws) bob_signed_in
                  bob_signed_in_reachable)).
Defined.

(** Both stored passwords are bcrypt hashes. *)
Lemma passwords_are_hashes_witness :
  Forall (fun u => hashed u
                   /\ exists password,
                        bcrypt_compare password (u_password u) = true)
    (users (db bob_signed_in)).
Proof.
  exact (passwords_are_hashes (L := plain_laws) bob_signed_in
           bob_signed_in_reachable).
Defined.

(** The ids of admin and bob are 1 and 2, below the counter 3. *)
Lemma ids_increase_witness :
  map u_id (users (db bob_signed_in)) = [1; 2]
  /\ StronglySorted Z.lt (map u_id (users (db bob_signed_in)))
  /\ users_auto_increment (db bob_signed_in) = 3.
Proof.
  split; [reflexivity|]. split; [|reflexivity].
  exact (proj2 (proj2 (proj1 (ids_increase bob_signed_in
                                bob_signed_in_reachable)))).
Defined.

(** The message that admin sent is listed with admin as its author. *)
Lemma messages_keep_their_author_witness :
  length (messages_page (calm 0 0) (db admin_wrote) 1) = 1%nat
  /\ Forall (fun row => exists u,
               In u (users (db admin_wrote))
               /\ get "user_id" row = Some (JNum (u_id u))
               /\ get "user_name" row = Some (JStr (u_username u)))
       (messages_page (calm 0 0) (db admin_wrote) 1).
Proof.
  split; [reflexivity|].
  exact (proj2 (messages_keep_their_author (calm 0 0) admin_wrote 1
                  admin_wrote_reachable)).
Defined.

(** One message: page 1 of the messages block has one row. *)
Lemma messages_block_counts_witness :
  Z.of_nat (length (block_data "messages"
                      (body (fst (admin_data (calm 0 0) [] admin_wrote)))))
  = 1.
Proof.
  assert (Hu : exact_page (page_of "page_users" []))
    by (vm_compute; split; congruence).
  assert (Hm : exact_page (page_of "page_msgs" []))
    by (vm_compute; split; congruence).
  pose proof (messages_block_counts (calm 0 0) [] admin_wrote
                admin_wrote_reachable admin_wrote_admin eq_refl Hu Hm) as H.
  cbv zeta in H. exact (proj2 H).
Defined.

(** The identifier bob logs into robert's account, found by its email, also
    after the username bob has been registered. *)
Lemma login_target_is_stable_witness :
  account_for "bob"
    (db (run [(calm 7 3001,
               PostRegister
                 (Some (registration "bob" "bob@example.com" "second")))]
           bob_by_email))
  = Some robert.
Proof.
  apply (login_target_is_stable "bob"
           [(calm 7 3001,
             PostRegister (Some (registration "bob" "bob@example.com" "second")))]
           bob_by_email robert).
  reflexivity.
Defined.



(** The first visitor registers as admin and may read the admin data. *)
Lemma first_admin_takes_the_gate_witness :
  admin_session
    (snd (register (calm 1 1000)
            (Some (registration "admin" "admin@example.com" "secret")) init)).
Proof.
  exact (proj1 (first_admin_takes_the_gate (calm 1 1000)
                  (registration "admin" "admin@example.com" "secret") init
                  reachable_init eq_refl eq_refl eq_refl eq_refl)).
Defined.

(** A second initDb on the server that the first one made changes nothing,
    also when the database has gone away. *)
Lemma initDb_idempotent_witness :
  bootstrapped (fst (initDb [] None))
  /\ fst (initDb [true] (fst (initDb [] None))) = fst (initDb [] None).
Proof.
  assert (H : bootstrapped (fst (initDb [] None))).
  { eexists. split; [reflexivity|]. split; discriminate. }
  split; [exact H|].
  exact (initDb_idempotent [true] (fst (initDb [] None)) H).
Defined.

(** initDb on the half-made server creates the messages table and keeps the
    row of the users table. *)
Lemma initDb_keeps_rows_witness :
  extends half_made (fst (initDb [] half_made))
  /\ bootstrapped (fst (initDb [] half_made)).
Proof.
  split; [exact (initDb_keeps_rows [] half_made)|].
  eexists. split; [reflexivity|]. split; discriminate.
Defined.

(** Admin asks for page -1 of the messages and gets the system error. *)
Lemma admin_data_negative_page_witness :
  fst (admin_data (calm 0 0) [("page_msgs", QStr "-1")] crowded)
  = status_json 500 (refusal "系統錯誤").
Proof.
  apply (admin_data_negative_page (calm 0 0) [("page_msgs", QStr "-1")] crowded
           crowded_admin eq_refl).
  right. reflexivity.
Defined.
